(** * Verification of the EIP-1193 core of nexum-kit

    Shallow embedding of
    - [crates/alloy-eip1193/src/error.rs]      (error taxonomy)
    - [crates/alloy-eip1193/src/transport.rs]  (request bridge)
    - [crates/alloy-eip1193/src/signer.rs]     (signer)
    - [crates/leptos-rainbowkit/src/state/connection.rs] (connection state)
*)

From Stdlib Require Import ZArith Lia Bool.
From stdpp Require Import base list gmap strings.

Open Scope Z_scope.

(** Rust's [Result<T, E>]. *)
Inductive result (A E : Type) : Type :=
| Ok (a : A)
| Err (e : E).
Arguments Ok {A E} a.
Arguments Err {A E} e.

(** A JavaScript object handle ([JsValue]) as an opaque reference. *)
Definition Handle := nat.

(** An [alloy::primitives::Address] as its 160-bit value. *)
Definition Address := Z.

(* ------------------------------------------------------------------ *)
(** ** Rust strings and the [str] / integer-parsing primitives used    *)
(* ------------------------------------------------------------------ *)

Module RustStr.

(** A Rust [&str] seen through [str::chars]: a list of Unicode scalar
    values. *)
Definition rstr := list Z.

(** Converting an ASCII Rocq string literal to [rstr] (for examples). *)
Definition chars (s : string) : rstr :=
  map (fun a => Z.of_nat (Ascii.nat_of_ascii a)) (String.list_ascii_of_string s).

(** [char::is_whitespace]: the Unicode [White_Space] property. *)
Definition is_whitespace (c : Z) : bool :=
  ((9 <=? c) && (c <=? 13)) || (c =? 32) || (c =? 133) || (c =? 160)
  || (c =? 5760) || ((8192 <=? c) && (c <=? 8202))
  || (c =? 8232) || (c =? 8233) || (c =? 8239) || (c =? 8287)
  || (c =? 12288).

(** [char::is_ascii_digit]. *)
Definition is_ascii_digit (c : Z) : bool := (48 <=? c) && (c <=? 57).

(** [str::split_whitespace]: maximal runs of non-whitespace characters,
    empty pieces dropped. [cur] is the piece read so far. *)
Fixpoint split_ws_from (cur : rstr) (s : rstr) : list rstr :=
  match s with
  | [] => match cur with [] => [] | _ => [cur] end
  | c :: s' =>
      if is_whitespace c then
        match cur with
        | [] => split_ws_from [] s'
        | _ => cur :: split_ws_from [] s'
        end
      else split_ws_from (cur ++ [c]) s'
  end.

Definition split_whitespace (s : rstr) : list rstr := split_ws_from [] s.

(** [Iterator::last]. *)
Fixpoint last_opt {A} (l : list A) : option A :=
  match l with
  | [] => None
  | [x] => Some x
  | _ :: l' => last_opt l'
  end.

(** [Iterator::find]. *)
Fixpoint find_first {A} (p : A -> bool) (l : list A) : option A :=
  match l with
  | [] => None
  | x :: l' => if p x then Some x else find_first p l'
  end.

(** [s.starts_with("0x")]. *)
Definition starts_with_0x (s : rstr) : bool :=
  match s with
  | c1 :: c2 :: _ => (c1 =? 48) && (c2 =? 120)
  | _ => false
  end.

(** [s.trim_start_matches("0x")]: strips the prefix as often as it
    occurs. *)
Fixpoint trim_start_0x (s : rstr) : rstr :=
  match s with
  | c1 :: c2 :: r =>
      if (c1 =? 48) && (c2 =? 120) then trim_start_0x r else s
  | _ => s
  end.

(** [char::to_digit(radix)] for [radix <= 36]. *)
Definition to_digit (radix c : Z) : option Z :=
  let d :=
    if (48 <=? c) && (c <=? 57) then c - 48
    else if (97 <=? c) && (c <=? 122) then c - 97 + 10
    else if (65 <=? c) && (c <=? 90) then c - 65 + 10
    else 36 in
  if d <? radix then Some d else None.

Definition u64_max : Z := 2 ^ 64 - 1.

Fixpoint digits_value (radix acc : Z) (s : rstr) : option Z :=
  match s with
  | [] => Some acc
  | c :: s' =>
      match to_digit radix c with
      | Some d => digits_value radix (acc * radix + d) s'
      | None => None
      end
  end.

(** [u64::from_str_radix(src, radix)] (and [str::parse::<u64>] for
    radix 10): empty input fails, a lone sign fails, one leading [+] is
    accepted, a [-] is an invalid digit for an unsigned type, and a value
    above [u64::MAX] fails with an overflow error. *)
Definition from_str_radix_u64 (src : rstr) (radix : Z) : option Z :=
  let digits :=
    match src with
    | [] => None
    | [c] => if (c =? 43) || (c =? 45) then None else Some src
    | c :: rest => if c =? 43 then Some rest else Some src
    end in
  match digits with
  | None => None
  | Some ds =>
      match digits_value radix 0 ds with
      | Some v => if v <=? u64_max then Some v else None
      | None => None
      end
  end.

Definition parse_u64 (s : rstr) : option Z := from_str_radix_u64 s 10.

End RustStr.

Import RustStr.

(* ------------------------------------------------------------------ *)
(** ** Error taxonomy: [error.rs]                                      *)
(* ------------------------------------------------------------------ *)

Module Eip1193Error.

Inductive Eip1193Error :=
| UserRejectedRequest
| Unauthorized (message : rstr)
| UnsupportedMethod (message : rstr)
| Disconnected
| ChainDisconnected (chain_id : Z)
| UnrecognizedChain (chain_id : Z)
| JsError (message : rstr)
| UnknownError (code : Z) (message : rstr)
| SerializationError (message : rstr).

(** The predicate of the [find] in the 4902 arm. *)
Definition chain_token (s : rstr) : bool :=
  starts_with_0x s || forallb is_ascii_digit s.

(** [Eip1193Error::from_code]. *)
Definition from_code (code : Z) (message : rstr) : Eip1193Error :=
  if code =? 4001 then UserRejectedRequest
  else if code =? 4100 then Unauthorized message
  else if code =? 4200 then UnsupportedMethod message
  else if code =? 4900 then Disconnected
  else if code =? 4901 then
    match last_opt (split_whitespace message) with
    | Some s =>
        match parse_u64 s with
        | Some v => ChainDisconnected v
        | None => ChainDisconnected 0
        end
    | None => ChainDisconnected 0
    end
  else if code =? 4902 then
    match find_first chain_token (split_whitespace message) with
    | Some s =>
        let parsed :=
          if starts_with_0x s then from_str_radix_u64 (trim_start_0x s) 16
          else parse_u64 s in
        match parsed with
        | Some v => UnrecognizedChain v
        | None => UnrecognizedChain 0
        end
    | None => UnrecognizedChain 0
    end
  else UnknownError code message.

(** [Eip1193Error::code]. *)
Definition code (e : Eip1193Error) : Z :=
  match e with
  | UserRejectedRequest => 4001
  | Unauthorized _ => 4100
  | UnsupportedMethod _ => 4200
  | Disconnected => 4900
  | ChainDisconnected _ => 4901
  | UnrecognizedChain _ => 4902
  | UnknownError c _ => c
  | JsError _ | SerializationError _ => 0
  end.

End Eip1193Error.

(** The 4901/4902 chain-id extraction as the specification words it
    ("the first matching [0x]-prefixed hex or pure-decimal token"); used
    to compare with [from_code]. *)
Module ChainIdReading.

Definition is_hex_digit (c : Z) : bool :=
  is_ascii_digit c || ((97 <=? c) && (c <=? 102)) || ((65 <=? c) && (c <=? 70)).

Definition hex_digit_value (c : Z) : Z :=
  if is_ascii_digit c then c - 48
  else if (97 <=? c) && (c <=? 102) then c - 87
  else c - 55.

Definition dec_value (t : rstr) : Z :=
  fold_left (fun acc c => acc * 10 + (c - 48)) t 0.

Definition hex_value (h : rstr) : Z :=
  fold_left (fun acc c => acc * 16 + hex_digit_value c) h 0.

(** A [0x]-prefixed hex token: [0x] followed by at least one hex digit. *)
Definition hex_token (t : rstr) : bool :=
  starts_with_0x t && negb (bool_decide (drop 2 t = []))
  && forallb is_hex_digit (drop 2 t).

Definition dec_token (t : rstr) : bool := forallb is_ascii_digit t.

Definition spec_unrecognized_chain (m : rstr) : Z :=
  match find_first (fun t => hex_token t || dec_token t) (split_whitespace m) with
  | Some t => if hex_token t then hex_value (drop 2 t) else dec_value t
  | None => 0
  end.


(** The codes with a named variant. *)
Definition known_codes : list Z := [4001; 4100; 4200; 4900; 4901; 4902].



End ChainIdReading.

(* ------------------------------------------------------------------ *)
(** ** JSON values and the request bridge: [transport.rs]              *)
(* ------------------------------------------------------------------ *)

Module Json.

Local Set Warnings "-register-all".

(** [serde_json::Value]. Integer numbers are kept exactly ([PosInt] and
    [NegInt]); a float is kept as its opaque bit pattern. Object fields
    are kept in order. *)
Inductive json :=
| JNull
| JBool (b : bool)
| JInt (n : Z)
| JFloat (bits : Z)
| JString (s : string)
| JArray (items : list json)
| JObject (fields : list (string * json)).

Fixpoint assoc_get (fields : list (string * json)) (k : string) : option json :=
  match fields with
  | [] => None
  | (k', v) :: fs => if String.eqb k' k then Some v else assoc_get fs k
  end.

(** [Value::get(key)]: [None] on anything but an object. *)
Definition value_get (v : json) (k : string) : option json :=
  match v with
  | JObject fs => assoc_get fs k
  | _ => None
  end.

(** [Value::as_str]. *)
Definition as_str (v : json) : option string :=
  match v with JString s => Some s | _ => None end.

(** [Value::as_u64]: a non-negative integer that fits in [u64]. *)
Definition as_u64 (v : json) : option Z :=
  match v with
  | JInt n => if (0 <=? n) && (n <=? u64_max) then Some n else None
  | _ => None
  end.

End Json.

Import Json.

Module Transport.

(** Error carriers a rejected provider call produces ([JsValue]): an
    object with optional [code] (already cast to [i32]) and [message]
    fields, a plain string, or anything else (kept as its [Debug] text). *)
Inductive JsCarrier :=
| CarrierObject (code : option Z) (message : option rstr) (debug : rstr)
| CarrierString (s : rstr)
| CarrierOther (debug : rstr).

(** [Eip1193Error::from_js_value]. *)
Definition from_js_value (v : JsCarrier) : Eip1193Error.Eip1193Error :=
  match v with
  | CarrierObject (Some code) message _ =>
      Eip1193Error.from_code code (default (chars "Unknown error") message)
  | CarrierObject None _ debug => Eip1193Error.JsError debug
  | CarrierString s => Eip1193Error.JsError s
  | CarrierOther debug => Eip1193Error.JsError debug
  end.

(** What the provider's [request(args)] call ends in: the promise resolves
    with a value ([None] when [JSON.stringify] gives no string, e.g. for
    [undefined]), or any step of the call throws or rejects with a
    carrier. *)
Inductive JsOutcome :=
| Resolved (v : option json)
| Rejected (e : JsCarrier).

(** The provider's single entry point, per provider object. *)
Definition Provider := Handle -> json -> JsOutcome.

(** [Eip1193Transport]. *)
Record Eip1193Transport := mkTransport { ethereum : Handle }.

(** [Eip1193Transport::new]. *)
Definition new (ethereum : Handle) : Eip1193Transport := mkTransport ethereum.

(** alloy's [Id] of a request. *)
Inductive Id :=
| IdNumber (n : Z)
| IdString (s : string)
| IdNone.

(** alloy's [SerializedRequest]: its params are omitted from the JSON when
    the params type is zero-sized ([None] here). *)
Record SerializedRequest := mkRequest {
  req_id : Id;
  req_method : string;
  req_params : option json
}.

Inductive RequestPacket :=
| Single (r : SerializedRequest)
| Batch (rs : list SerializedRequest).

Definition id_to_json (i : Id) : json :=
  match i with
  | IdNumber n => JInt n
  | IdString s => JString s
  | IdNone => JNull
  end.

Definition request_to_json (r : SerializedRequest) : json :=
  JObject ([("method", JString (req_method r))]
           ++ match req_params r with Some p => [("params", p)] | None => [] end
           ++ [("id", id_to_json (req_id r)); ("jsonrpc", JString "2.0")]).

(** [serde_json::to_string] of a packet followed by [serde_json::from_str]:
    the JSON value of the packet. *)
Definition packet_to_json (p : RequestPacket) : json :=
  match p with
  | Single r => request_to_json r
  | Batch rs => JArray (map request_to_json rs)
  end.

(** Errors of the service future ([TransportError]). *)
Inductive TransportError :=
| TransportCustom (msg : string)
| TransportEip1193 (e : Eip1193Error.Eip1193Error).

(** What [js_sys::JSON::stringify] followed by [serde_json::from_str]
    makes of a resolved value that stringifies to a string: the stringify
    throws (a BigInt, a cyclic object), serde_json parses the text, or
    serde_json rejects it (nesting deeper than its limit, a lone
    surrogate) with its error message. *)
Inductive ResultJson :=
| StringifyFailed
| Parsed (v : json)
| ParseFailed (msg : rstr).

Section Bridge.

(** [JSON.parse] turns every JSON integer into a double: [f64_round] is
    the rounding of an integer to the nearest double. *)
Variable f64_round : Z -> Z.
(** [JSON.stringify] of a resolved value followed by
    [serde_json::from_str]. *)
Variable json_of_js : json -> ResultJson.

(** [js_sys::JSON::parse(&serde_json::to_string(&params))]. *)
Fixpoint to_js (v : json) : json :=
  match v with
  | JInt n => JInt (f64_round n)
  | JArray items => JArray (map to_js items)
  | JObject fs => JObject (map (fun '(k, x) => (k, to_js x)) fs)
  | _ => v
  end.

(** The [{ method, params }] object handed to [request]. *)
Definition request_object (method : string) (params : json) : json :=
  JObject [("method", JString method); ("params", to_js params)].

(** The part of [request_raw] after the promise settles. *)
Definition response_of (r : JsOutcome) (id : Z) : result json Eip1193Error.Eip1193Error :=
  match r with
  | Rejected e => Err (from_js_value e)
  | Resolved None =>
      Err (Eip1193Error.SerializationError (chars "Failed to convert result to string"))
  | Resolved (Some v) =>
      match json_of_js v with
      | StringifyFailed =>
          Err (Eip1193Error.SerializationError (chars "Failed to stringify result"))
      | ParseFailed msg => Err (Eip1193Error.SerializationError msg)
      | Parsed result_value =>
          Ok (JObject [("jsonrpc", JString "2.0"); ("id", JInt id);
                       ("result", result_value)])
      end
  end.

(** [Eip1193Transport::request_raw]. *)
Definition request_raw (provider : Provider) (t : Eip1193Transport)
    (method : string) (params : json) (id : Z) : result json Eip1193Error.Eip1193Error :=
  response_of (provider (ethereum t) (request_object method params)) id.

(** [Eip1193Transport::request] with [R = Value]: the [result] field. *)
Definition request (provider : Provider) (t : Eip1193Transport)
    (method : string) (params : json) : result json Eip1193Error.Eip1193Error :=
  match request_raw provider t method params 1 with
  | Err e => Err e
  | Ok resp =>
      match value_get resp "result" with
      | Some r => Ok r
      | None => Err (Eip1193Error.SerializationError (chars "Missing result field in response"))
      end
  end.

(** The method, params and id [call] extracts from the request JSON. *)
Definition extract_request (req : RequestPacket) : option (string * json * Z) :=
  let request_value := packet_to_json req in
  match value_get request_value "method" with
  | Some m =>
      match as_str m with
      | Some method =>
          let params := default (JArray []) (value_get request_value "params") in
          let id := default 0 (match value_get request_value "id" with
                               | Some v => as_u64 v
                               | None => None
                               end) in
          Some (method, params, id)
      | None => None
      end
  | None => None
  end.

(** [<Eip1193Transport as Service<RequestPacket>>::call]; the response
    envelope is returned as the JSON that is deserialised into the
    [ResponsePacket]. *)
Definition call (provider : Provider) (t : Eip1193Transport) (req : RequestPacket)
    : result json TransportError :=
  match extract_request req with
  | None => Err (TransportCustom "Missing method in request")
  | Some (method, params, id) =>
      match request_raw provider t method params id with
      | Err e => Err (TransportEip1193 e)
      | Ok response => Ok response
      end
  end.

End Bridge.

End Transport.

(* ------------------------------------------------------------------ *)
(** ** The signer: [signer.rs]                                         *)
(* ------------------------------------------------------------------ *)

Module Signer.
Import Transport.

(** [hex::encode]: two lower-case hex digits per byte. *)
Definition hex_char (n : Z) : Ascii.ascii :=
  Ascii.ascii_of_nat (Z.to_nat (if n <? 10 then 48 + n else 87 + n)).

Fixpoint hex_encode (bs : list Z) : string :=
  match bs with
  | [] => EmptyString
  | b :: bs' => String (hex_char (b / 16)) (String (hex_char (b mod 16)) (hex_encode bs'))
  end.

(** [Eip1193Signer]. *)
Record Eip1193Signer := mkSigner {
  transport : Eip1193Transport;
  address : Address;
  chain_id : option Z
}.

(** [Eip1193Signer::new]. *)
Definition new (ethereum : Handle) (address : Address) : Eip1193Signer :=
  mkSigner (Transport.new ethereum) address None.

(** [Eip1193Signer::new_with_chain_id]. *)
Definition new_with_chain_id (ethereum : Handle) (address : Address) (chain_id : Z)
    : Eip1193Signer :=
  mkSigner (Transport.new ethereum) address (Some chain_id).

(** [Signer::set_chain_id]. *)
Definition set_chain_id (s : Eip1193Signer) (c : option Z) : Eip1193Signer :=
  mkSigner (transport s) (address s) c.

(** The error of [validate_chain_id] ([JsValue] string). *)
Inductive ChainIdMismatch := Mismatch (current expected : Z).

(** [Eip1193Signer::validate_chain_id]. *)
Definition validate_chain_id (s : Eip1193Signer) (expected : Z) : result unit ChainIdMismatch :=
  match chain_id s with
  | Some current => if negb (current =? expected) then Err (Mismatch current expected) else Ok tt
  | None => Ok tt
  end.

(** [alloy::signers::Error::other(..)], by the failing step. *)
Inductive SignerError :=
| SignHashFailed (e : Eip1193Error.Eip1193Error)
| SignMessageFailed (e : Eip1193Error.Eip1193Error)
| SignTypedDataFailed (e : Eip1193Error.Eip1193Error)
| SerializeTypedDataFailed
| ParseSignatureFailed.

Section Signing.

Variable f64_round : Z -> Z.
Variable json_of_js : json -> ResultJson.
(** [format!("{:?}", address)]. *)
Variable address_debug : Address -> string.
(** [str::parse::<Signature>]. *)
Variable Signature : Type.
Variable parse_signature : string -> option Signature.
(** alloy's [TypedData], [serde_json::to_value] of it, signable
    transactions, [encode_for_signing] and [keccak256]. *)
Variable TypedData : Type.
Variable typed_data_to_value : TypedData -> option json.
Variable Tx : Type.
Variable encode_for_signing : Tx -> list Z.
Variable keccak256 : list Z -> list Z.

(** [transport.request::<_, String>(method, params)] then the signature
    parse; [wrap] is the [map_err] of the request failure. *)
Definition request_signature (provider : Provider) (s : Eip1193Signer)
    (wrap : Eip1193Error.Eip1193Error -> SignerError) (method : string) (params : json)
    : result Signature SignerError :=
  match request f64_round json_of_js provider (transport s) method params with
  | Err e => Err (wrap e)
  | Ok (JString sig_str) =>
      match parse_signature sig_str with
      | Some sg => Ok sg
      | None => Err ParseSignatureFailed
      end
  | Ok _ =>
      Err (wrap (Eip1193Error.SerializationError (chars "Failed to deserialize response")))
  end.

(** [Signer::sign_hash]: [eth_sign] with [(address, 0x-hash)]; a Rust
    tuple serialises to a JSON array. *)
Definition sign_hash (provider : Provider) (s : Eip1193Signer) (hash : list Z)
    : result Signature SignerError :=
  let params := JArray [JString (address_debug (address s));
                        JString ("0x" +:+ hex_encode hash)] in
  request_signature provider s SignHashFailed "eth_sign" params.

(** [Signer::sign_message]: [personal_sign] with [(0x-message, address)]. *)
Definition sign_message (provider : Provider) (s : Eip1193Signer) (message : list Z)
    : result Signature SignerError :=
  let params := JArray [JString ("0x" +:+ hex_encode message);
                        JString (address_debug (address s))] in
  request_signature provider s SignMessageFailed "personal_sign" params.

(** [Signer::sign_dynamic_typed_data]: [eth_signTypedData_v4] with
    [(address, typed data JSON)]. *)
Definition sign_dynamic_typed_data (provider : Provider) (s : Eip1193Signer)
    (payload : TypedData) : result Signature SignerError :=
  match typed_data_to_value payload with
  | None => Err SerializeTypedDataFailed
  | Some payload_json =>
      let params := JArray [JString (address_debug (address s)); payload_json] in
      request_signature provider s SignTypedDataFailed "eth_signTypedData_v4" params
  end.

(** Failures of [refresh_chain_id]. *)
Inductive RefreshError :=
| RefreshRequestFailed (e : Eip1193Error.Eip1193Error)
| RefreshParseFailed.

(** [Eip1193Signer::refresh_chain_id]. *)
Definition refresh_chain_id (provider : Provider) (s : Eip1193Signer)
    : Eip1193Signer * result Z RefreshError :=
  match request f64_round json_of_js provider (transport s) "eth_chainId" (JArray []) with
  | Err e => (s, Err (RefreshRequestFailed e))
  | Ok (JString chain_id_hex) =>
      match from_str_radix_u64 (trim_start_0x (chars chain_id_hex)) 16 with
      | Some c => (set_chain_id s (Some c), Ok c)
      | None => (s, Err RefreshParseFailed)
      end
  | Ok _ =>
      (s, Err (RefreshRequestFailed
                 (Eip1193Error.SerializationError (chars "Failed to deserialize response"))))
  end.

(** [TxSigner::sign_transaction]: hash the signing encoding and sign the
    hash with [eth_sign]. *)
Definition sign_transaction (provider : Provider) (s : Eip1193Signer) (tx : Tx)
    : result Signature SignerError :=
  let tx_encoded := encode_for_signing tx in
  let tx_hash := keccak256 tx_encoded in
  sign_hash provider s tx_hash.

End Signing.

End Signer.

(* ------------------------------------------------------------------ *)
(** ** The connection state machine: [state/connection.rs]             *)
(* ------------------------------------------------------------------ *)

Module Connection.

Inductive ConnectionStatus :=
| Disconnected
| Connecting
| Connected.

#[global] Instance ConnectionStatus_eq_dec : EqDecision ConnectionStatus.
Proof. solve_decision. Defined.

(** [WalletProvider]: the HTTP provider for the consumer's RPC URL with
    the EIP-1193 signer as its wallet. *)
Record WalletProvider := mkProvider {
  wallet : Signer.Eip1193Signer;
  rpc_url : string
}.

(** [ConnectionState]: one field per signal, plus the consumer's
    [transports] map (chain id to RPC URL). *)
Record ConnectionState := mkState {
  status : ConnectionStatus;
  address : option Address;
  chain_id : option Z;
  connector_id : option string;
  provider : option WalletProvider;
  transports : gmap Z string
}.

(** [ConnectionState::new]. *)
Definition new (transports : gmap Z string) : ConnectionState :=
  mkState Disconnected None None None None transports.

(** The signal setters. *)
Definition set_status (v : ConnectionStatus) (s : ConnectionState) : ConnectionState :=
  mkState v (address s) (chain_id s) (connector_id s) (provider s) (transports s).
Definition set_address (v : option Address) (s : ConnectionState) : ConnectionState :=
  mkState (status s) v (chain_id s) (connector_id s) (provider s) (transports s).
Definition set_chain_id (v : option Z) (s : ConnectionState) : ConnectionState :=
  mkState (status s) (address s) v (connector_id s) (provider s) (transports s).
Definition set_connector_id (v : option string) (s : ConnectionState) : ConnectionState :=
  mkState (status s) (address s) (chain_id s) v (provider s) (transports s).
Definition set_provider (v : option WalletProvider) (s : ConnectionState) : ConnectionState :=
  mkState (status s) (address s) (chain_id s) (connector_id s) v (transports s).

(** The [JsValue] errors [connect] returns. *)
Inductive ConnectError :=
| ConnectionInProgress
| ConnectorFailed (e : rstr)
| NoEthereumProvider
| ChainIdFailed
| NoRpcUrl (chain_id : Z)
| InvalidRpcUrl.

(** [connect] up to its first [await]: either it returns at once, or it
    has set [Connecting] and awaits [connector.connect()]. *)
Inductive ConnectStart :=
| Finished (r : result unit ConnectError)
| Awaiting.

Definition connect_start (s : ConnectionState) (connector : string)
    : ConnectionState * ConnectStart :=
  if decide (status s = Connecting) then (s, Finished (Err ConnectionInProgress))
  else if decide (status s = Connected /\ connector_id s = Some connector)
  then (s, Finished (Ok tt))
  else (set_status Connecting s, Awaiting).

(** What the awaited external calls of [connect] give: the connector's
    [connect()], its [get_provider()], and the wallet's [eth_chainId]
    reply as a string ([None] when the request fails or the reply is not
    a string). *)
Record ConnectOutcome := mkOutcome {
  connector_result : result Address rstr;
  connector_provider : option Handle;
  chain_id_reply : option rstr
}.

(** [ConnectionState::get_current_chain_id] after its request settles. *)
Definition get_current_chain_id (reply : option rstr) : result Z ConnectError :=
  match reply with
  | None => Err ChainIdFailed
  | Some chain_id_hex =>
      match from_str_radix_u64 (trim_start_0x chain_id_hex) 16 with
      | Some c => Ok c
      | None => Err ChainIdFailed
      end
  end.

(** Event payloads: [accountsChanged] gets an array whose items are kept
    as their [as_string()], or a non-array; [chainChanged] and [connect]
    get a value kept as its [as_string()] (for [connect], that of its
    [chainId] property). *)
Inductive AccountsPayload :=
| AccountsArray (items : list (option rstr))
| AccountsNotArray.

Section Machine.

(** [rpc_url.parse::<reqwest::Url>()] succeeds. *)
Variable url_valid : string -> bool.
(** [str::parse::<Address>]. *)
Variable parse_address : rstr -> option Address.

(** [connect] after [connector.connect()] settles (lines 292-342). *)
Definition connect_finish (s : ConnectionState) (connector : string) (o : ConnectOutcome)
    : ConnectionState * result unit ConnectError :=
  match connector_result o with
  | Err e =>
      (set_provider None (set_status Disconnected s), Err (ConnectorFailed e))
  | Ok addr =>
      match connector_provider o with
      | None => (s, Err NoEthereumProvider)
      | Some ethereum_js =>
          let signer := Signer.new ethereum_js addr in
          match get_current_chain_id (chain_id_reply o) with
          | Err e => (s, Err e)
          | Ok chain =>
              match transports s !! chain with
              | None => (s, Err (NoRpcUrl chain))
              | Some url =>
                  if url_valid url then
                    let p := mkProvider signer url in
                    (set_status Connected
                      (set_provider (Some p)
                        (set_connector_id (Some connector)
                          (set_chain_id (Some chain)
                            (set_address (Some addr) s)))), Ok tt)
                  else (s, Err InvalidRpcUrl)
              end
          end
      end
  end.

(** [connect] run without interleaving. *)
Definition connect (s : ConnectionState) (connector : string) (o : ConnectOutcome)
    : ConnectionState * result unit ConnectError :=
  match connect_start s connector with
  | (s', Finished r) => (s', r)
  | (s', Awaiting) => connect_finish s' connector o
  end.

(** [ConnectionState::disconnect]. *)
Definition disconnect (s : ConnectionState) : ConnectionState * result unit ConnectError :=
  (set_status Disconnected
    (set_provider None
      (set_connector_id None
        (set_chain_id None
          (set_address None s)))), Ok tt).

(** The [accountsChanged] listener. *)
Definition on_accounts_changed (s : ConnectionState) (accounts : AccountsPayload)
    : ConnectionState :=
  if decide (status s = Disconnected) then s
  else
    match accounts with
    | AccountsArray [] => set_status Disconnected (set_address None s)
    | AccountsArray (Some account_str :: _) =>
        match parse_address account_str with
        | Some a => set_address (Some a) s
        | None => s
        end
    | AccountsArray (None :: _) => s
    | AccountsNotArray => s
    end.

(** The [chainChanged] listener. *)
Definition on_chain_changed (s : ConnectionState) (chain_id_hex : option rstr)
    : ConnectionState :=
  if decide (status s = Disconnected) then s
  else
    match chain_id_hex with
    | Some str =>
        match from_str_radix_u64 (trim_start_0x str) 16 with
        | Some c => set_chain_id (Some c) s
        | None => s
        end
    | None => s
    end.

(** The [disconnect] listener. *)
Definition on_disconnect_event (s : ConnectionState) : ConnectionState :=
  if decide (status s = Disconnected) then s
  else
    set_connector_id None
      (set_provider None
        (set_chain_id None
          (set_address None
            (set_status Disconnected s)))).

(** The [connect] listener. *)
Definition on_connect_event (s : ConnectionState) (chain_id_hex : option rstr)
    : ConnectionState :=
  if decide (status s = Connected) then s
  else
    match chain_id_hex with
    | Some str =>
        match from_str_radix_u64 (trim_start_0x str) 16 with
        | Some c => set_chain_id (Some c) s
        | None => s
        end
    | None => s
    end.

(** Interleavings. A configuration is the state, the connector ids of the
    [connect] calls suspended on [connector.connect()], and the number of
    listener sets installed on the wallet (one per successful connect,
    never removed). *)
Record Config := mkConfig {
  st : ConnectionState;
  pending : list string;
  listeners : nat
}.

Inductive Label :=
| LConnectStart (connector : string)
| LConnectFinish (connector : string)
| LDisconnect
| LAccountsChanged
| LChainChanged
| LDisconnectEvent
| LConnectEvent.

Definition is_ok {A E} (r : result A E) : bool :=
  match r with Ok _ => true | Err _ => false end.

Inductive step : Config -> Label -> Config -> Prop :=
| step_connect_return c cid s' r :
    connect_start (st c) cid = (s', Finished r) ->
    step c (LConnectStart cid) (mkConfig s' (pending c) (listeners c))
| step_connect_suspend c cid s' :
    connect_start (st c) cid = (s', Awaiting) ->
    step c (LConnectStart cid) (mkConfig s' (cid :: pending c) (listeners c))
| step_connect_resume c p1 cid p2 o s' r :
    pending c = p1 ++ cid :: p2 ->
    connect_finish (st c) cid o = (s', r) ->
    step c (LConnectFinish cid)
      (mkConfig s' (p1 ++ p2) (if is_ok r then S (listeners c) else listeners c))
| step_disconnect c :
    step c LDisconnect (mkConfig (fst (disconnect (st c))) (pending c) (listeners c))
| step_accounts_changed c a :
    (0 < listeners c)%nat ->
    step c LAccountsChanged (mkConfig (on_accounts_changed (st c) a) (pending c) (listeners c))
| step_chain_changed c v :
    (0 < listeners c)%nat ->
    step c LChainChanged (mkConfig (on_chain_changed (st c) v) (pending c) (listeners c))
| step_disconnect_event c :
    (0 < listeners c)%nat ->
    step c LDisconnectEvent (mkConfig (on_disconnect_event (st c)) (pending c) (listeners c))
| step_connect_event c v :
    (0 < listeners c)%nat ->
    step c LConnectEvent (mkConfig (on_connect_event (st c) v) (pending c) (listeners c)).

Definition init (transports : gmap Z string) : Config := mkConfig (new transports) [] 0.

(** Configurations reachable from [ConnectionState::new]. *)
Inductive reachable (transports : gmap Z string) : Config -> Prop :=
| reach_init : reachable transports (init transports)
| reach_step c l c' : reachable transports c -> step c l c' -> reachable transports c'.

End Machine.

End Connection.


Ltac split_ifs :=
  repeat match goal with
  | |- context [if ?b then _ else _] => destruct b eqn:?
  end.

Ltac zcases :=
  repeat (cbv zeta; simpl; match goal with
  | |- context [?a <=? ?b] => destruct (Z.leb_spec a b)
  | |- context [?a <? ?b] => destruct (Z.ltb_spec a b)
  end); simpl.

(** The statements of the connection claims, and the concrete session used
    to evaluate them. *)
Module ConnectionClaims.
Import Connection.

Definition snapshot_cleared (s : ConnectionState) : Prop :=
  address s = None /\ chain_id s = None /\ connector_id s = None /\ provider s = None.

(** The transitions the specification lists. *)
Definition allowed_transition (a b : ConnectionStatus) : Prop :=
  (a = Disconnected /\ b = Connecting) \/ (a = Connecting /\ b = Connected) \/
  (a = Connected /\ b = Disconnected) \/ (a = Connecting /\ b = Disconnected).

(** C2 as worded: every status change of a reachable step is listed. *)
Definition status_cycle_claim (url_valid : string -> bool)
    (parse_address : rstr -> option Address) : Prop :=
  forall transports c l c',
    reachable url_valid parse_address transports c ->
    step url_valid parse_address c l c' ->
    status (st c) <> status (st c') ->
    allowed_transition (status (st c)) (status (st c')).

(** C5 as worded: the [connect] listener does nothing while
    [Disconnected]. *)
Definition connect_event_guard_claim (url_valid : string -> bool)
    (parse_address : rstr -> option Address) : Prop :=
  forall transports c v,
    reachable url_valid parse_address transports c ->
    status (st c) = Disconnected ->
    on_connect_event (st c) v = st c.

Definition demo_rpc : string := "https://rpc.example".
Definition demo_transports : gmap Z string := {[1 := demo_rpc]}.
Definition accept_url (url : string) : bool := true.
Definition no_address (s : rstr) : option Address := None.

(** The wallet answers [connect] with address 7, provider object 1 and
    chain [0x1]. *)
Definition demo_outcome : ConnectOutcome :=
  mkOutcome (Ok 7) (Some 1%nat) (Some (chars "0x1")).

Definition demo_provider : WalletProvider := mkProvider (Signer.new 1%nat 7) demo_rpc.

Definition demo_connected : ConnectionState :=
  mkState Connected (Some 7) (Some 1) (Some "metamask") (Some demo_provider) demo_transports.

(** The wallet connects with address 7 on chain [0x5], for which no RPC
    URL is registered. *)
Definition chain5_outcome : ConnectOutcome :=
  mkOutcome (Ok 7) (Some 1%nat) (Some (chars "0x5")).

(** The connector's [connect()] is rejected. *)
Definition rejected_outcome : ConnectOutcome :=
  mkOutcome (Err (chars "rejected")) None None.

Definition stuck_connecting : ConnectionState := set_status Connecting (new demo_transports).

End ConnectionClaims.

Module TransportClaims.
Import Transport.

(** C8 as worded: a success envelope carries the id of the inbound
    request. *)
Definition envelope_id_claim (f64_round : Z -> Z) (json_of_js : json -> ResultJson) : Prop :=
  forall provider t r env,
    call f64_round json_of_js provider t (Single r) = Ok env ->
    value_get env "id" = Some (id_to_json (req_id r)).

(** A provider that resolves every request with [null]. *)
Definition null_provider : Provider := fun _ _ => Resolved (Some JNull).

(** A parameterless request whose id is the string "abc". *)
Definition string_id_request : SerializedRequest := mkRequest (IdString "abc") "eth_accounts" None.

End TransportClaims.

Module SignerClaims.

(** A payload that serialises to the object [{"a": 1}]. *)
Definition unit_typed_data (_ : unit) : option json := Some (JObject [("a", JInt 1)]).

End SignerClaims.

(* ------------------------------------------------------------------ *)
(** ** The rest of [error.rs]                                          *)
(* ------------------------------------------------------------------ *)

Module Eip1193ErrorOps.
Import Eip1193Error.

(** [Eip1193Error::is_user_rejection]. *)
Definition is_user_rejection (e : Eip1193Error) : bool :=
  match e with UserRejectedRequest => true | _ => false end.

(** [Eip1193Error::is_authorization_error]. *)
Definition is_authorization_error (e : Eip1193Error) : bool :=
  match e with Unauthorized _ | UserRejectedRequest => true | _ => false end.

(** [Eip1193Error::is_chain_error]. *)
Definition is_chain_error (e : Eip1193Error) : bool :=
  match e with
  | Disconnected | ChainDisconnected _ | UnrecognizedChain _ => true
  | _ => false
  end.

(** [x as i32] for an [i64] [x]: the low 32 bits read in two's
    complement. *)
Definition i64_as_i32 (x : Z) : Z :=
  let m := x mod 2 ^ 32 in if m <? 2 ^ 31 then m else m - 2 ^ 32.

(** [Eip1193Error::from_error_payload]; [ErrorPayload::code] is an
    [i64]. *)
Definition from_error_payload (code : Z) (message : rstr) : Eip1193Error :=
  from_code (i64_as_i32 code) message.

(** [str::starts_with] with a string pattern. *)
Fixpoint starts_with (s p : rstr) : bool :=
  match p, s with
  | [], _ => true
  | c :: p', d :: s' => (c =? d) && starts_with s' p'
  | _ :: _, [] => false
  end.

(** [str::contains] with a string pattern. *)
Fixpoint contains (s p : rstr) : bool :=
  starts_with s p || match s with [] => false | _ :: s' => contains s' p end.

(** [Eip1193Error::from_transport_error], as a function of
    [err.to_string()]. *)
Definition from_transport_error (err_str : rstr) : option Eip1193Error :=
  if contains err_str (chars "User rejected") || contains err_str (chars "4001") then
    Some UserRejectedRequest
  else if contains err_str (chars "4100") || contains err_str (chars "Unauthorized") then
    Some (Unauthorized err_str)
  else if contains err_str (chars "4200") || contains err_str (chars "Unsupported method") then
    Some (UnsupportedMethod err_str)
  else if contains err_str (chars "4900") || contains err_str (chars "Disconnected") then
    Some Disconnected
  else if contains err_str (chars "4901")
          || contains err_str (chars "not connected to requested chain") then
    Some (ChainDisconnected 0)
  else if contains err_str (chars "4902") || contains err_str (chars "Unrecognized chain") then
    Some (UnrecognizedChain 0)
  else None.

(** [format!("{}", n)] for a [u64] [n], least significant digit first:
    decimal digits without leading zeros; a [u64] has at most 20. *)
Fixpoint dec_le (fuel : nat) (n : Z) : rstr :=
  match fuel with
  | O => []
  | S f => let c := 48 + n mod 10 in if n <? 10 then [c] else c :: dec_le f (n / 10)
  end.

Definition dec_u64 (n : Z) : rstr := rev (dec_le 20 n).

(** [format!("{}", n)] for an [i32] [n]. *)
Definition dec_i32 (n : Z) : rstr := if n <? 0 then 45 :: dec_u64 (- n) else dec_u64 n.

(** The [Display] of [Eip1193Error] (its [#[error(..)]] attributes): the
    text [to_string] gives, which [From<Eip1193Error> for JsValue] and the
    custom transport error carry. *)
Definition display (e : Eip1193Error) : rstr :=
  match e with
  | UserRejectedRequest => chars "User rejected the request"
  | Unauthorized m => chars "Unauthorized: " ++ m
  | UnsupportedMethod m => chars "Unsupported method: " ++ m
  | Disconnected => chars "Provider disconnected from all chains"
  | ChainDisconnected c => chars "Provider not connected to requested chain: " ++ dec_u64 c
  | UnrecognizedChain c =>
      chars "Chain " ++ dec_u64 c ++ chars " has not been added to the provider"
  | JsError m => chars "JavaScript error: " ++ m
  | UnknownError c m => chars "Error " ++ dec_i32 c ++ chars ": " ++ m
  | SerializationError m => chars "Serialization error: " ++ m
  end.

End Eip1193ErrorOps.

(* ------------------------------------------------------------------ *)
(** ** [WalletOperations]: [wallet.rs]                                 *)
(* ------------------------------------------------------------------ *)

Module WalletOps.
Import Transport.

(** [format!("{:x}", n)] for a [u64] [n], least significant digit first:
    lower-case hex digits without leading zeros ("0" for zero); a [u64]
    has at most 16 of them. *)
Fixpoint lower_hex_le (fuel : nat) (n : Z) : rstr :=
  match fuel with
  | O => []
  | S f =>
      let d := n mod 16 in
      let c := if d <? 10 then 48 + d else 87 + d in
      if n <? 16 then [c] else c :: lower_hex_le f (n / 16)
  end.

Definition lower_hex (n : Z) : rstr := rev (lower_hex_le 16 n).

(** A Rust [String] whose characters are below 256 as a Rocq string. *)
Fixpoint string_of_rstr (s : rstr) : string :=
  match s with
  | [] => EmptyString
  | c :: s' => String (Ascii.ascii_of_nat (Z.to_nat c)) (string_of_rstr s')
  end.

(** [format!("0x{:x}", chain_id)]. *)
Definition chain_id_hex (chain_id : Z) : string :=
  "0x" +:+ string_of_rstr (lower_hex chain_id).

(** [WalletOperations::request_accounts] errors: the request (with the
    [Vec<String>] deserialisation) failing, or an entry that is not an
    address. *)
Inductive AccountsError :=
| AccountsRequestFailed (e : Eip1193Error.Eip1193Error)
| InvalidAddressFormat.

(** Deserialising a [Vec<String>] from a JSON value. *)
Definition strings_of (v : json) : option (list string) :=
  match v with
  | JArray items => mapM as_str items
  | _ => None
  end.

Section Ops.

Variable f64_round : Z -> Z.
Variable json_of_js : json -> ResultJson.
(** [str::parse::<Address>]. *)
Variable parse_address : string -> option Address.

(** [.map(|s| s.parse()).collect::<Result<Vec<_>, _>>()]: stops at the
    first entry that does not parse. *)
Fixpoint collect_addresses (l : list string) : result (list Address) AccountsError :=
  match l with
  | [] => Ok []
  | s :: l' =>
      match parse_address s with
      | None => Err InvalidAddressFormat
      | Some a =>
          match collect_addresses l' with
          | Ok r => Ok (a :: r)
          | Err e => Err e
          end
      end
  end.

(** [WalletOperations::request_accounts]. *)
Definition request_accounts (provider : Provider) (t : Eip1193Transport)
    : result (list Address) AccountsError :=
  match request f64_round json_of_js provider t "eth_requestAccounts" (JArray []) with
  | Err e => Err (AccountsRequestFailed e)
  | Ok v =>
      match strings_of v with
      | None =>
          Err (AccountsRequestFailed
                 (Eip1193Error.SerializationError (chars "Failed to deserialize response")))
      | Some l => collect_addresses l
      end
  end.

(** [WalletOperations::switch_chain]; its [JsValue] error carries the
    text of the [Eip1193Error], kept here as the error itself. *)
Definition switch_chain (provider : Provider) (t : Eip1193Transport) (chain_id : Z)
    : result unit Eip1193Error.Eip1193Error :=
  let params := JArray [JObject [("chainId", JString (chain_id_hex chain_id))]] in
  match request f64_round json_of_js provider t "wallet_switchEthereumChain" params with
  | Err e => Err e
  | Ok _ => Ok tt
  end.

End Ops.

End WalletOps.

(* ------------------------------------------------------------------ *)
(** ** [NetworkWallet for Eip1193Signer]: [signer.rs]                  *)
(* ------------------------------------------------------------------ *)

Module SignerOps.
Import Transport Signer.

(** [NetworkWallet::has_signer_for]. *)
Definition has_signer_for (s : Eip1193Signer) (a : Address) : bool := a =? address s.

(** The two ways [sign_transaction_from] fails. *)
Inductive WalletError :=
| SenderMismatch
| SigningFailed (e : SignerError).

Section NetworkWallet.

Variable f64_round : Z -> Z.
Variable json_of_js : json -> ResultJson.
Variable address_debug : Address -> string.
Variable Signature : Type.
Variable parse_signature : string -> option Signature.
Variable Tx : Type.
Variable encode_for_signing : Tx -> list Z.
Variable keccak256 : list Z -> list Z.
(** [tx.into_signed(signature).into()]. *)
Variable Envelope : Type.
Variable into_signed : Tx -> Signature -> Envelope.

(** [NetworkWallet::sign_transaction_from]. *)
Definition sign_transaction_from (provider : Provider) (s : Eip1193Signer)
    (sender : Address) (tx : Tx) : result Envelope WalletError :=
  if negb (sender =? address s) then Err SenderMismatch
  else
    match sign_transaction f64_round json_of_js address_debug Signature parse_signature
            Tx encode_for_signing keccak256 provider s tx with
    | Ok signature => Ok (into_signed tx signature)
    | Err e => Err (SigningFailed e)
    end.

End NetworkWallet.

End SignerOps.

(** The invariant of reachable connection configurations. *)
Module ConnectionInvariant.
Import Connection.

(** A [Connected] state has its whole snapshot, and the wallet listeners
    are installed. *)
Definition connected_complete (c : Config) : Prop :=
  status (st c) = Connected ->
  is_Some (address (st c)) /\ is_Some (chain_id (st c)) /\
  is_Some (connector_id (st c)) /\ is_Some (provider (st c)) /\ (0 < listeners c)%nat.

End ConnectionInvariant.

(** Unfolds the connection handlers down to their record updates. *)
Ltac unfold_machine :=
  unfold Connection.connect_start, Connection.connect_finish, Connection.get_current_chain_id, Connection.disconnect,
    Connection.on_accounts_changed, Connection.on_chain_changed,
    Connection.on_disconnect_event, Connection.on_connect_event,
    Connection.set_status, Connection.set_address, Connection.set_chain_id,
    Connection.set_connector_id, Connection.set_provider in *.

(* ================================================================== *)
(** * Proofs                                                           *)
(* ================================================================== *)

Module Eip1193ErrorFacts.
Import Eip1193Error ChainIdReading.

Example from_code_4902_hex :
  from_code 4902 (chars "Unrecognized chain 0x7a69") = UnrecognizedChain 31337.
Proof. vm_compute. reflexivity. Qed.

Example from_code_4902_dec :
  from_code 4902 (chars "chain 42161 missing") = UnrecognizedChain 42161.
Proof. vm_compute. reflexivity. Qed.

Example from_code_4901_trailing :
  from_code 4901 (chars "chain 137") = ChainDisconnected 137.
Proof. vm_compute. reflexivity. Qed.

Example from_code_4901_garbage :
  from_code 4901 (chars "garbage") = ChainDisconnected 0.
Proof. vm_compute. reflexivity. Qed.

Example spec_reading_bad_hex_first :
  spec_unrecognized_chain (chars "chain 0xzz 42161") = 42161.
Proof. vm_compute. reflexivity. Qed.

Example from_code_4902_bad_hex_first :
  from_code 4902 (chars "chain 0xzz 42161") = UnrecognizedChain 0.
Proof. vm_compute. reflexivity. Qed.





Lemma digits_value_all (radix acc : Z) (s : rstr) (f : Z -> Z) :
  Forall (fun c => to_digit radix c = Some (f c)) s ->
  digits_value radix acc s = Some (fold_left (fun a c => a * radix + f c) s acc).
Proof.
  intros H. revert acc. induction H as [|c s Hc _ IH]; intros acc; simpl; [done|].
  rewrite Hc. apply IH.
Qed.


Lemma to_digit_dec (c : Z) :
  is_ascii_digit c = true -> to_digit 10 c = Some (c - 48).
Proof. unfold is_ascii_digit, to_digit. zcases; intros; try discriminate; f_equal; lia. Qed.


Lemma to_digit_hex (c : Z) :
  is_hex_digit c = true -> to_digit 16 c = Some (hex_digit_value c).
Proof.
  unfold is_hex_digit, hex_digit_value, is_ascii_digit, to_digit.
  zcases; intros; try discriminate; f_equal; lia.
Qed.


Lemma trim_start_0x_no_prefix (h : rstr) :
  starts_with_0x h = false -> trim_start_0x h = h.
Proof.
  destruct h as [|a [|b r]]; simpl; [done|done|].
  intros E. by rewrite E.
Qed.

Lemma trim_start_0x_once (h : rstr) :
  starts_with_0x h = false -> trim_start_0x ([48; 120] ++ h) = h.
Proof. intros E. simpl. by apply trim_start_0x_no_prefix. Qed.



Lemma from_str_radix_u64_digits (src : rstr) (radix : Z) (f : Z -> Z) :
  to_digit radix 43 = None -> to_digit radix 45 = None ->
  src <> [] -> Forall (fun c => to_digit radix c = Some (f c)) src ->
  fold_left (fun a c => a * radix + f c) src 0 <= u64_max ->
  from_str_radix_u64 src radix = Some (fold_left (fun a c => a * radix + f c) src 0).
Proof.
  intros H43 H45 Hne Hall Hmax.
  assert (Hds : (match src with
                 | [] => None
                 | [c] => if (c =? 43) || (c =? 45) then None else Some src
                 | c :: rest => if c =? 43 then Some rest else Some src
                 end) = Some src).
  { destruct src as [|a [|b r]]; [done| |];
      inversion Hall as [|? ? Ha]; subst;
      destruct (Z.eqb_spec a 43); [congruence| |congruence|];
      [destruct (Z.eqb_spec a 45); [congruence|]|]; done. }
  unfold from_str_radix_u64. rewrite Hds.
  rewrite (digits_value_all radix 0 src f Hall).
  apply Z.leb_le in Hmax. by rewrite Hmax.
Qed.

Lemma from_code_4901 (m : rstr) :
  from_code 4901 m =
  match last_opt (split_whitespace m) with
  | Some s => match parse_u64 s with
              | Some v => ChainDisconnected v
              | None => ChainDisconnected 0
              end
  | None => ChainDisconnected 0
  end.
Proof. reflexivity. Qed.

Lemma from_code_4902 (m : rstr) :
  from_code 4902 m =
  match find_first chain_token (split_whitespace m) with
  | Some s =>
      match (if starts_with_0x s then from_str_radix_u64 (trim_start_0x s) 16
             else parse_u64 s) with
      | Some v => UnrecognizedChain v
      | None => UnrecognizedChain 0
      end
  | None => UnrecognizedChain 0
  end.
Proof. reflexivity. Qed.

(** C1: every code of {4001, 4100, 4200, 4900, 4901, 4902} is classified by
    [from_code] as its named variant (for every message), and [code] gives
    the code back; every other code is classified as
    [UnknownError code message], and [code] gives the code back. *)
Theorem from_code_code_roundtrip (c : Z) (msg : rstr) :
  from_code 4001 msg = UserRejectedRequest /\
  from_code 4100 msg = Unauthorized msg /\
  from_code 4200 msg = UnsupportedMethod msg /\
  from_code 4900 msg = Disconnected /\
  (exists id, from_code 4901 msg = ChainDisconnected id) /\
  (exists id, from_code 4902 msg = UnrecognizedChain id) /\
  (In c known_codes -> code (from_code c msg) = c) /\
  (~ In c known_codes ->
     from_code c msg = UnknownError c msg /\ code (from_code c msg) = c).
Proof.
  split_and!; [done|done|done|done| | | |].
  - rewrite from_code_4901. repeat case_match; eauto.
  - rewrite from_code_4902. repeat case_match; eauto.
  - intros Hin. simpl in Hin.
    destruct Hin as [<-|[<-|[<-|[<-|[<-|[<-|[]]]]]]];
      [done|done|done|done| |].
    + rewrite from_code_4901. by repeat case_match.
    + rewrite from_code_4902. by repeat case_match.
  - intros Hnin. simpl in Hnin.
    assert (E : from_code c msg = UnknownError c msg).
    { unfold from_code.
      repeat match goal with
      | |- context [c =? ?k] =>
          destruct (Z.eqb_spec c k); [subst; exfalso; apply Hnin; tauto|]
      end.
      done. }
    by rewrite E.
Qed.

Lemma from_code_code_roundtrip_witness :
  (In 4100 known_codes -> code (from_code 4100 (chars "x")) = 4100) /\
  (from_code 7 (chars "x") = UnknownError 7 (chars "x") /\
   code (from_code 7 (chars "x")) = 7).
Proof.
  split.
  - apply (from_code_code_roundtrip 4100 (chars "x")).
  - apply (from_code_code_roundtrip 7 (chars "x")). vm_compute. intuition discriminate.
Defined.




Lemma all_hex_no_0x (h : rstr) :
  forallb is_hex_digit h = true -> starts_with_0x h = false.
Proof.
  destruct h as [|a [|b r]]; simpl; [done|done|].
  intros H. apply andb_true_iff in H as [_ H]. apply andb_true_iff in H as [Hb _].
  destruct (Z.eqb_spec b 120); [subst; discriminate|]. by rewrite andb_false_r.
Qed.

Lemma forallb_Forall_digit (t : rstr) :
  forallb is_ascii_digit t = true ->
  Forall (fun c => to_digit 10 c = Some (c - 48)) t.
Proof.
  intros H. rewrite forallb_forall in H. apply List.Forall_forall.
  intros c Hc. apply to_digit_dec, H, Hc.
Qed.

Lemma forallb_Forall_hex (h : rstr) :
  forallb is_hex_digit h = true ->
  Forall (fun c => to_digit 16 c = Some (hex_digit_value c)) h.
Proof.
  intros H. rewrite forallb_forall in H. apply List.Forall_forall.
  intros c Hc. apply to_digit_hex, H, Hc.
Qed.

Lemma parse_u64_dec (t : rstr) :
  t <> [] -> forallb is_ascii_digit t = true -> dec_value t <= u64_max ->
  parse_u64 t = Some (dec_value t).
Proof.
  intros Hne Hd Hmax. unfold parse_u64, dec_value in *.
  apply (from_str_radix_u64_digits t 10 (fun c => c - 48)); try done.
  by apply forallb_Forall_digit.
Qed.



Lemma hex_0x_parse (h : rstr) :
  h <> [] -> forallb is_hex_digit h = true -> hex_value h <= u64_max ->
  from_str_radix_u64 (trim_start_0x ([48; 120] ++ h)) 16 = Some (hex_value h).
Proof.
  intros Hne Hh Hmax.
  rewrite trim_start_0x_once by (by apply all_hex_no_0x).
  unfold hex_value.
  apply (from_str_radix_u64_digits h 16 hex_digit_value); try done.
  by apply forallb_Forall_hex.
Qed.






End Eip1193ErrorFacts.

Module ConnectionFacts.
Import Connection ConnectionClaims ChainIdReading Eip1193ErrorFacts.

(** A successful [connect] to "metamask" from [ConnectionState::new] is a
    reachable configuration: connected, one listener set installed. *)
Lemma demo_connected_reachable (parse_address : rstr -> option Address) :
  reachable accept_url parse_address demo_transports (mkConfig demo_connected [] 1).
Proof.
  apply (reach_step _ _ _ (mkConfig (set_status Connecting (new demo_transports)) ["metamask"] 0)
           (LConnectFinish "metamask")).
  - apply (reach_step _ _ _ (init demo_transports) (LConnectStart "metamask")).
    + apply reach_init.
    + exact (step_connect_suspend _ _ (init demo_transports) "metamask" _ eq_refl).
  - exact (step_connect_resume accept_url parse_address
             (mkConfig (set_status Connecting (new demo_transports)) ["metamask"] 0)
             [] "metamask" [] demo_outcome demo_connected (Ok tt) eq_refl eq_refl).
Qed.

(** C2 (counterexample): connected to "metamask", a [connect()] to another
    connector ("coinbase") moves the status from [Connected] to
    [Connecting], a transition the specification does not list. *)
Lemma status_cycle_counterexample : ~ status_cycle_claim accept_url no_address.
Proof.
  intros H.
  assert (Hstep : step accept_url no_address (mkConfig demo_connected [] 1)
                    (LConnectStart "coinbase")
                    (mkConfig (set_status Connecting demo_connected) ["coinbase"] 1)).
  { exact (step_connect_suspend _ _ (mkConfig demo_connected [] 1) "coinbase" _ eq_refl). }
  specialize (H demo_transports _ _ _ (demo_connected_reachable no_address) Hstep).
  simpl in H. unfold allowed_transition in H.
  destruct H as [[? ?]|[[? ?]|[[? ?]|[? ?]]]]; [done|discriminate..].
Qed.

(** A [connect] whose connector call completes after an interleaved
    [disconnect()] still publishes the session: [Disconnected] to
    [Connected]. *)
Lemma resume_after_disconnect_connects (parse_address : rstr -> option Address) :
  exists c c',
    reachable accept_url parse_address demo_transports c /\
    step accept_url parse_address c (LConnectFinish "metamask") c' /\
    status (st c) = Disconnected /\ status (st c') = Connected.
Proof.
  set (c1 := mkConfig (set_status Connecting (new demo_transports)) ["metamask"] 0).
  set (c2 := mkConfig (fst (disconnect (st c1))) ["metamask"] 0).
  exists c2, (mkConfig demo_connected [] 1). split_and!.
  - apply (reach_step _ _ _ c1 LDisconnect).
    + apply (reach_step _ _ _ (init demo_transports) (LConnectStart "metamask")).
      * apply reach_init.
      * exact (step_connect_suspend _ _ (init demo_transports) "metamask" _ eq_refl).
    + exact (step_disconnect _ _ c1).
  - exact (step_connect_resume accept_url parse_address c2 [] "metamask" []
             demo_outcome demo_connected (Ok tt) eq_refl eq_refl).
  - reflexivity.
  - reflexivity.
Qed.

(** C2 (amended): in any step of any interleaving, the status either stays,
    or moves along a listed transition, or moves [Connected] to
    [Connecting] by a [connect()] to a connector other than the connected
    one, or moves [Disconnected] to [Connected] when a suspended
    [connect()] completes after an interleaved disconnect. *)
Theorem status_transitions (url_valid : string -> bool)
    (parse_address : rstr -> option Address) (c : Config) (l : Label) (c' : Config)
    (Hstep : step url_valid parse_address c l c') :
  status (st c) = status (st c') \/
  allowed_transition (status (st c)) (status (st c')) \/
  (status (st c) = Connected /\ status (st c') = Connecting /\
   exists cid, l = LConnectStart cid /\ connector_id (st c) <> Some cid) \/
  (status (st c) = Disconnected /\ status (st c') = Connected /\
   exists cid, l = LConnectFinish cid).
Proof.
  unfold allowed_transition.
  destruct c as [[stt a ch cn pv tr] pd ls].
  inversion Hstep; subst; simpl in *; unfold_machine; simpl in *;
    repeat (case_match; simplify_eq/=); (try destruct stt); naive_solver.
Qed.

Lemma status_transitions_witness :
  let c := mkConfig demo_connected [] 1 in
  let c' := mkConfig (set_status Connecting demo_connected) ["coinbase"] 1 in
  step accept_url no_address c (LConnectStart "coinbase") c' /\
  (status (st c) = Connected /\ status (st c') = Connecting /\
   exists cid, LConnectStart "coinbase" = LConnectStart cid /\
               connector_id (st c) <> Some cid) .
Proof.
  simpl. split.
  - exact (step_connect_suspend _ _ (mkConfig demo_connected [] 1) "coinbase" _ eq_refl).
  - pose proof (status_transitions accept_url no_address (mkConfig demo_connected [] 1)
                  (LConnectStart "coinbase")
                  (mkConfig (set_status Connecting demo_connected) ["coinbase"] 1)
                  (step_connect_suspend _ _ (mkConfig demo_connected [] 1) "coinbase" _ eq_refl))
      as H.
    simpl in H. destruct H as [H|[H|[H|H]]].
    + discriminate H.
    + exfalso. unfold allowed_transition in H.
      destruct H as [[? ?]|[[? ?]|[[? ?]|[? ?]]]]; discriminate.
    + exact H.
    + exfalso. destruct H as [H _]. discriminate H.
Defined.

(** On the connector-success path every error return hands back the state
    [connect_start] produced, so the status stays [Connecting]. *)
Lemma connect_finish_error_unchanged (url_valid : string -> bool) s cid o addr s' e :
  connector_result o = Ok addr ->
  connect_finish url_valid s cid o = (s', Err e) -> s' = s.
Proof.
  intros Ho. unfold connect_finish. rewrite Ho.
  repeat case_match; congruence.
Qed.

(** On the connector-failure path only the status and the provider are
    reset. *)
Lemma connect_finish_connector_failure (url_valid : string -> bool) s cid o e :
  connector_result o = Err e ->
  connect_finish url_valid s cid o =
    (mkState Disconnected (address s) (chain_id s) (connector_id s) None (transports s),
     Err (ConnectorFailed e)).
Proof. intros Ho. unfold connect_finish. by rewrite Ho. Qed.

(** C3: a [connect()] whose wallet sits on a chain with no registered RPC
    URL returns the configuration error and leaves the status at
    [Connecting] (reachably, with no connect pending), where every later
    [connect()] is refused as in progress; and a connector failure after a
    previous session leaves that session's address, chain id and
    connector id in the snapshot. *)
Theorem connect_error_leaves_connecting (parse_address : rstr -> option Address) :
  connect accept_url (new demo_transports) "metamask" chain5_outcome =
    (stuck_connecting, Err (NoRpcUrl 5)) /\
  status stuck_connecting = Connecting /\
  reachable accept_url parse_address demo_transports (mkConfig stuck_connecting [] 0) /\
  connect_start stuck_connecting "metamask" =
    (stuck_connecting, Finished (Err ConnectionInProgress)) /\
  connect accept_url demo_connected "coinbase" rejected_outcome =
    (mkState Disconnected (Some 7) (Some 1) (Some "metamask") None demo_transports,
     Err (ConnectorFailed (chars "rejected"))).
Proof.
  split_and!; [vm_compute; reflexivity | reflexivity | | vm_compute; reflexivity
              | vm_compute; reflexivity].
  apply (reach_step _ _ _ (mkConfig stuck_connecting ["metamask"] 0)
           (LConnectFinish "metamask")).
  - apply (reach_step _ _ _ (init demo_transports) (LConnectStart "metamask")).
    + apply reach_init.
    + exact (step_connect_suspend _ _ (init demo_transports) "metamask" _ eq_refl).
  - exact (step_connect_resume accept_url parse_address
             (mkConfig stuck_connecting ["metamask"] 0)
             [] "metamask" [] chain5_outcome stuck_connecting (Err (NoRpcUrl 5))
             eq_refl eq_refl).
Qed.

(** The parts of the [accountsChanged] listener that follow the
    specification: it is ignored while [Disconnected], and a non-empty
    array whose first entry parses sets the address. *)
Lemma on_accounts_changed_guard (parse_address : rstr -> option Address) s a :
  status s = Disconnected -> on_accounts_changed parse_address s a = s.
Proof. intros H. unfold on_accounts_changed. by rewrite decide_True. Qed.

Lemma on_accounts_changed_first (parse_address : rstr -> option Address) s str rest x :
  status s <> Disconnected -> parse_address str = Some x ->
  on_accounts_changed parse_address s (AccountsArray (Some str :: rest)) =
    set_address (Some x) s.
Proof. intros H Hp. unfold on_accounts_changed. rewrite decide_False by done. by rewrite Hp. Qed.

(** C4: from a reachable [Connected] session, [accountsChanged([])] sets
    [Disconnected] and clears the address but keeps the chain id, the
    connector id and the provider, while the [disconnect] listener clears
    them all. *)
Theorem accounts_changed_empty_keeps_session (parse_address : rstr -> option Address) :
  reachable accept_url parse_address demo_transports (mkConfig demo_connected [] 1) /\
  on_accounts_changed parse_address demo_connected (AccountsArray []) =
    mkState Disconnected None (Some 1) (Some "metamask") (Some demo_provider) demo_transports /\
  ~ snapshot_cleared (on_accounts_changed parse_address demo_connected (AccountsArray [])) /\
  snapshot_cleared (on_disconnect_event demo_connected).
Proof.
  split_and!.
  - apply demo_connected_reachable.
  - reflexivity.
  - unfold snapshot_cleared. simpl. intros (_ & H & _). discriminate H.
  - unfold snapshot_cleared. simpl. split_and!; reflexivity.
Qed.

(** C5 (counterexample): after [disconnect()] from a reachable [Connected]
    session the listeners are still installed, and a [connect] event with
    chain [0x1] writes the chain id into the [Disconnected] snapshot. *)
Lemma connect_event_guard_counterexample : ~ connect_event_guard_claim accept_url no_address.
Proof.
  intros H.
  set (c := mkConfig (fst (disconnect demo_connected)) [] 1).
  assert (Hr : reachable accept_url no_address demo_transports c).
  { apply (reach_step _ _ _ (mkConfig demo_connected [] 1) LDisconnect).
    - apply demo_connected_reachable.
    - exact (step_disconnect _ _ (mkConfig demo_connected [] 1)). }
  specialize (H demo_transports c (Some (chars "0x1")) Hr eq_refl).
  vm_compute in H. discriminate H.
Qed.

(** C5 (amended): the [connect] listener never changes the status; while
    [Connected] it changes nothing; otherwise (also while [Disconnected])
    it can only set the chain id, and does so to the value of a
    well-formed [0x] hex payload. *)
Theorem on_connect_event_refresh (s : ConnectionState) (v : option rstr) :
  status (on_connect_event s v) = status s /\
  (status s = Connected -> on_connect_event s v = s) /\
  (on_connect_event s v = s \/ exists c, on_connect_event s v = set_chain_id (Some c) s) /\
  (forall h, status s <> Connected -> v = Some ([48; 120] ++ h) -> h <> [] ->
     forallb is_hex_digit h = true -> hex_value h <= u64_max ->
     on_connect_event s v = set_chain_id (Some (hex_value h)) s).
Proof.
  unfold on_connect_event. split_and!.
  - repeat case_match; reflexivity.
  - intros H. by rewrite decide_True.
  - repeat case_match; eauto.
  - intros h Hc -> Hne Hh Hmax. rewrite decide_False by done.
    by rewrite hex_0x_parse.
Qed.

Lemma on_connect_event_refresh_witness :
  on_connect_event (fst (disconnect demo_connected)) (Some (chars "0x1")) =
    set_chain_id (Some 1) (fst (disconnect demo_connected)).
Proof.
  destruct (on_connect_event_refresh (fst (disconnect demo_connected)) (Some (chars "0x1")))
    as (_ & _ & _ & H).
  refine (H [49] _ _ _ _ _); [discriminate | reflexivity | discriminate | reflexivity
             | vm_compute; discriminate].
Defined.

(** C7: [disconnect()] twice succeeds both times, leaves [Disconnected] and
    a cleared snapshot both times, the second call changing nothing; and a
    [connect()] while [Connecting] fails at once with
    [ConnectionInProgress], returning the state as it was. *)
Theorem disconnect_idempotent_connect_guard (url_valid : string -> bool)
    (s : ConnectionState) (cid : string) (o : ConnectOutcome) :
  snd (disconnect s) = Ok tt /\ snd (disconnect (fst (disconnect s))) = Ok tt /\
  status (fst (disconnect s)) = Disconnected /\
  status (fst (disconnect (fst (disconnect s)))) = Disconnected /\
  snapshot_cleared (fst (disconnect s)) /\
  snapshot_cleared (fst (disconnect (fst (disconnect s)))) /\
  fst (disconnect (fst (disconnect s))) = fst (disconnect s) /\
  (status s = Connecting ->
   connect_start s cid = (s, Finished (Err ConnectionInProgress)) /\
   connect url_valid s cid o = (s, Err ConnectionInProgress)).
Proof.
  unfold snapshot_cleared. split_and!; try reflexivity.
  intros H. unfold connect, connect_start. by rewrite decide_True.
Qed.

Lemma disconnect_idempotent_connect_guard_witness :
  connect accept_url stuck_connecting "metamask" demo_outcome =
    (stuck_connecting, Err ConnectionInProgress).
Proof.
  destruct (disconnect_idempotent_connect_guard accept_url stuck_connecting "metamask"
              demo_outcome) as (_ & _ & _ & _ & _ & _ & _ & H).
  exact (proj2 (H eq_refl)).
Defined.

End ConnectionFacts.

Module TransportFacts.
Import Transport TransportClaims.

(** C8 (counterexample): a request with the string id "abc" gets a
    success envelope with id 0, since [call] reads the id with [as_u64]
    and defaults to 0. *)
Lemma envelope_id_counterexample : ~ envelope_id_claim (fun n => n) (fun v => Parsed v).
Proof.
  intros H.
  specialize (H null_provider (new 0%nat) string_id_request _ eq_refl).
  vm_compute in H. discriminate H.
Qed.

(** C8 (amended): the success envelope of a single request is
    [{jsonrpc: "2.0", id, result}] where id is the request's numeric id, and
    0 for a string or null id; the provider is asked with the request's
    params, [[]] when the request has none; a batch is refused. *)
Theorem call_envelope (f64_round : Z -> Z) (json_of_js : json -> ResultJson)
    (t : Eip1193Transport) (r : SerializedRequest) :
  (forall provider n env, req_id r = IdNumber n -> 0 <= n <= u64_max ->
     call f64_round json_of_js provider t (Single r) = Ok env ->
     exists v, env = JObject [("jsonrpc", JString "2.0"); ("id", JInt n); ("result", v)]) /\
  (forall provider env, (forall n, req_id r <> IdNumber n) ->
     call f64_round json_of_js provider t (Single r) = Ok env ->
     exists v, env = JObject [("jsonrpc", JString "2.0"); ("id", JInt 0); ("result", v)]) /\
  (req_params r = None ->
     exists k, forall provider, call f64_round json_of_js provider t (Single r) =
       k (provider (ethereum t)
            (JObject [("method", JString (req_method r)); ("params", JArray [])]))) /\
  (forall p, req_params r = Some p ->
     exists k, forall provider, call f64_round json_of_js provider t (Single r) =
       k (provider (ethereum t)
            (JObject [("method", JString (req_method r)); ("params", to_js f64_round p)]))) /\
  (forall provider rs, call f64_round json_of_js provider t (Batch rs) =
     Err (TransportCustom "Missing method in request")).
Proof.
  assert (Hx : extract_request (Single r) =
    Some (req_method r, default (JArray []) (req_params r),
          default 0 (match req_id r with IdNumber n => as_u64 (JInt n) | _ => None end))).
  { destruct r as [i m [p|]]; destruct i; reflexivity. }
  split_and!.
  - intros provider n env Hi Hn. unfold call. rewrite Hx, Hi. unfold as_u64.
    replace ((0 <=? n) && (n <=? u64_max)) with true
      by (symmetry; apply andb_true_intro; split; apply Z.leb_le; lia).
    unfold request_raw, response_of. repeat case_match; intros; simplify_eq; eauto.
  - intros provider env Hi. unfold call. rewrite Hx.
    unfold request_raw, response_of.
    destruct (req_id r); [exfalso; by eapply Hi| |];
      repeat case_match; intros; simplify_eq; eauto.
  - intros Hp. exists (fun o => call f64_round json_of_js (fun _ _ => o) t (Single r)).
    intros provider. unfold call. rewrite Hx, Hp. reflexivity.
  - intros p Hp. exists (fun o => call f64_round json_of_js (fun _ _ => o) t (Single r)).
    intros provider. unfold call. rewrite Hx, Hp. reflexivity.
  - reflexivity.
Qed.

Lemma call_envelope_witness :
  exists v, call (fun n => n) (fun v => Parsed v) null_provider (new 0%nat)
              (Single (mkRequest (IdNumber 5) "eth_accounts" None)) =
            Ok (JObject [("jsonrpc", JString "2.0"); ("id", JInt 5); ("result", v)]).
Proof.
  destruct (call_envelope (fun n => n) (fun v => Parsed v) (new 0%nat)
              (mkRequest (IdNumber 5) "eth_accounts" None)) as (H & _).
  destruct (H null_provider 5 _ eq_refl ltac:(unfold u64_max; lia) eq_refl) as [v Hv].
  exists v. rewrite <- Hv. reflexivity.
Defined.

End TransportFacts.

Module SignerFacts.
Import Transport Signer SignerClaims.

Section SignerRequests.

Variable f64_round : Z -> Z.
Variable json_of_js : json -> ResultJson.
Variable address_debug : Address -> string.
Variable Signature : Type.
Variable parse_signature : string -> option Signature.
Variable TypedData : Type.
Variable typed_data_to_value : TypedData -> option json.
Variable Tx : Type.
Variable encode_for_signing : Tx -> list Z.
Variable keccak256 : list Z -> list Z.

(** C9: each signing operation asks the provider of the signer's transport
    exactly one request, with a fixed method and parameter order, its
    result depending on the provider only through the reply to that
    request: [eth_sign] with (address, 0x-hash), [personal_sign] with
    (0x-message, address), [eth_signTypedData_v4] with (address, typed
    data JSON); a transaction is signed as [sign_hash] of the keccak256 of
    its signing encoding. The address is the signer's own. *)
Theorem signer_requests (s : Eip1193Signer) (hash message : list Z) (payload : TypedData)
    (tx : Tx) :
  (exists k, forall provider,
     sign_hash f64_round json_of_js address_debug Signature parse_signature provider s hash =
     k (provider (ethereum (transport s))
          (JObject [("method", JString "eth_sign");
                    ("params", JArray [JString (address_debug (address s));
                                       JString ("0x" +:+ hex_encode hash)])]))) /\
  (exists k, forall provider,
     sign_message f64_round json_of_js address_debug Signature parse_signature
       provider s message =
     k (provider (ethereum (transport s))
          (JObject [("method", JString "personal_sign");
                    ("params", JArray [JString ("0x" +:+ hex_encode message);
                                       JString (address_debug (address s))])]))) /\
  (forall payload_json, typed_data_to_value payload = Some payload_json ->
   exists k, forall provider,
     sign_dynamic_typed_data f64_round json_of_js address_debug Signature parse_signature
       TypedData typed_data_to_value provider s payload =
     k (provider (ethereum (transport s))
          (JObject [("method", JString "eth_signTypedData_v4");
                    ("params", JArray [JString (address_debug (address s));
                                       to_js f64_round payload_json])]))) /\
  (forall provider,
     sign_transaction f64_round json_of_js address_debug Signature parse_signature
       Tx encode_for_signing keccak256 provider s tx =
     sign_hash f64_round json_of_js address_debug Signature parse_signature
       provider s (keccak256 (encode_for_signing tx))).
Proof.
  split_and!.
  - exists (fun o => sign_hash f64_round json_of_js address_debug Signature parse_signature
                       (fun _ _ => o) s hash).
    reflexivity.
  - exists (fun o => sign_message f64_round json_of_js address_debug Signature parse_signature
                       (fun _ _ => o) s message).
    reflexivity.
  - intros payload_json Hp.
    exists (fun o => sign_dynamic_typed_data f64_round json_of_js address_debug Signature
                       parse_signature TypedData typed_data_to_value (fun _ _ => o) s payload).
    intros provider. unfold sign_dynamic_typed_data. rewrite Hp. reflexivity.
  - reflexivity.
Qed.

End SignerRequests.

Lemma signer_requests_witness :
  exists k, forall provider,
    sign_dynamic_typed_data (fun n => n) (fun v => Parsed v) (fun _ => "0x07") string Some
      unit unit_typed_data provider (Signer.new 1%nat 7) tt =
    k (provider 1%nat
         (JObject [("method", JString "eth_signTypedData_v4");
                   ("params", JArray [JString "0x07"; JObject [("a", JInt 1)]])])).
Proof.
  destruct (signer_requests (fun n => n) (fun v => Parsed v) (fun _ => "0x07") string Some
              unit unit_typed_data unit (fun _ => []) (fun h => h)
              (Signer.new 1%nat 7) [] [] tt tt) as (_ & _ & H & _).
  exact (H (JObject [("a", JInt 1)]) eq_refl).
Defined.

(** C10: a signer without a cached chain id (every signer built by
    [Eip1193Signer::new]) validates against every expected chain; a
    validation fails exactly when a cached chain id exists and differs
    from the expected one, and [new_with_chain_id] and [set_chain_id]
    are the constructors that cache one. *)
Theorem validate_chain_id_cases (s : Eip1193Signer) (expected : Z) (ethereum : Handle)
    (a : Address) (c : Z) :
  validate_chain_id (Signer.new ethereum a) expected = Ok tt /\
  (chain_id s = None -> validate_chain_id s expected = Ok tt) /\
  (forall e, validate_chain_id s expected = Err e ->
     exists current, chain_id s = Some current /\ current <> expected /\
                     e = Mismatch current expected) /\
  (forall current, chain_id s = Some current -> current <> expected ->
     validate_chain_id s expected = Err (Mismatch current expected)) /\
  chain_id (new_with_chain_id ethereum a c) = Some c /\
  chain_id (Signer.set_chain_id s (Some c)) = Some c.
Proof.
  unfold validate_chain_id. split_and!; try reflexivity.
  - intros ->. reflexivity.
  - intros e. destruct (chain_id s) as [current|]; [|discriminate].
    destruct (Z.eqb_spec current expected); simpl; intros; simplify_eq; eauto.
  - intros current -> Hne. by rewrite (proj2 (Z.eqb_neq _ _) Hne).
Qed.

Lemma validate_chain_id_cases_witness :
  validate_chain_id (new_with_chain_id 1%nat 7 5) 1 = Err (Mismatch 5 1).
Proof.
  destruct (validate_chain_id_cases (new_with_chain_id 1%nat 7 5) 1 1%nat 7 5)
    as (_ & _ & _ & H & _).
  apply H; [reflexivity | lia].
Defined.

End SignerFacts.

Module ErrorOpsFacts.
Import Eip1193Error Eip1193ErrorOps.

(** [code] reads back the code [from_code] was given, for every code. *)
Lemma code_from_code (c : Z) (m : rstr) : code (from_code c m) = c.
Proof.
  unfold from_code.
  destruct (Z.eqb_spec c 4001) as [->|]; [done|].
  destruct (Z.eqb_spec c 4100) as [->|]; [done|].
  destruct (Z.eqb_spec c 4200) as [->|]; [done|].
  destruct (Z.eqb_spec c 4900) as [->|]; [done|].
  destruct (Z.eqb_spec c 4901) as [->|]; [repeat case_match; done|].
  destruct (Z.eqb_spec c 4902) as [->|]; [repeat case_match; done|].
  done.
Qed.

(** The classification predicates on an error built by [from_code]:
    user rejection exactly for 4001, authorization error exactly for 4001
    and 4100, chain error exactly for 4900, 4901 and 4902, whatever the
    message. *)
Theorem from_code_classification (c : Z) (m : rstr) :
  is_user_rejection (from_code c m) = (c =? 4001) /\
  is_authorization_error (from_code c m) = (c =? 4001) || (c =? 4100) /\
  is_chain_error (from_code c m) = (c =? 4900) || (c =? 4901) || (c =? 4902).
Proof.
  unfold from_code.
  destruct (Z.eqb_spec c 4001) as [->|]; [done|].
  destruct (Z.eqb_spec c 4100) as [->|]; [done|].
  destruct (Z.eqb_spec c 4200) as [->|]; [done|].
  destruct (Z.eqb_spec c 4900) as [->|]; [done|].
  destruct (Z.eqb_spec c 4901) as [->|]; [repeat case_match; done|].
  destruct (Z.eqb_spec c 4902) as [->|]; [repeat case_match; done|].
  repeat rewrite (proj2 (Z.eqb_neq _ _)) by done. done.
Qed.

Lemma i64_as_i32_range (x : Z) : - 2 ^ 31 <= i64_as_i32 x < 2 ^ 31.
Proof.
  unfold i64_as_i32.
  pose proof (Z.mod_pos_bound x (2 ^ 32) ltac:(lia)).
  destruct (Z.ltb_spec (x mod 2 ^ 32) (2 ^ 31)); lia.
Qed.

Lemma i64_as_i32_small (x : Z) : - 2 ^ 31 <= x < 2 ^ 31 -> i64_as_i32 x = x.
Proof.
  intros Hx. unfold i64_as_i32.
  destruct (Z.leb_spec 0 x).
  - rewrite Z.mod_small by lia. destruct (Z.ltb_spec x (2 ^ 31)); lia.
  - replace (x mod 2 ^ 32) with (x + 2 ^ 32).
    + destruct (Z.ltb_spec (x + 2 ^ 32) (2 ^ 31)); lia.
    + apply (Z.mod_unique _ _ (-1)); lia.
Qed.

(** [from_error_payload] truncates the [i64] code to [i32]: codes equal
    modulo [2^32] give the same error (so [4001 + 2^32] is a user
    rejection); a code in the [i32] range is classified by [from_code]
    and read back by [code]; a code outside it never is. *)
Theorem from_error_payload_i32 (c k : Z) (m : rstr) :
  from_error_payload (c + k * 2 ^ 32) m = from_error_payload c m /\
  (- 2 ^ 31 <= c < 2 ^ 31 ->
     from_error_payload c m = from_code c m /\ code (from_error_payload c m) = c) /\
  (~ (- 2 ^ 31 <= c < 2 ^ 31) -> code (from_error_payload c m) <> c) /\
  from_error_payload (4001 + 2 ^ 32) m = UserRejectedRequest.
Proof.
  unfold from_error_payload. split_and!.
  - f_equal. unfold i64_as_i32. by rewrite Z.mod_add by lia.
  - intros Hc. rewrite i64_as_i32_small by done. split; [done|apply code_from_code].
  - intros Hc. rewrite code_from_code. intros He.
    pose proof (i64_as_i32_range c). lia.
  - reflexivity.
Qed.

Lemma from_error_payload_i32_witness :
  code (from_error_payload (-32602) (chars "Invalid params")) = -32602.
Proof.
  destruct (from_error_payload_i32 (-32602) 0 (chars "Invalid params")) as (_ & H & _).
  exact (proj2 (H ltac:(lia))).
Defined.

Ltac split_contains :=
  repeat match goal with
  | |- context [if ?a || ?b then _ else _] =>
      let E1 := fresh "E" in let E2 := fresh "E" in
      destruct a eqn:E1; [|destruct b eqn:E2]; cbn [orb]
  end.

(** [from_transport_error] on an error text: a text containing "4001" or
    "User rejected" anywhere is a user rejection (so the text of
    [UnrecognizedChain(40010)] is one); a recovered error always has one
    of the six EIP-1193 codes, and a recovered chain id is always 0; the
    result is [None] exactly when none of the twelve patterns occurs. *)
Theorem from_transport_error_shape (s : rstr) :
  (contains s (chars "User rejected") = true \/ contains s (chars "4001") = true ->
     from_transport_error s = Some UserRejectedRequest) /\
  (forall e, from_transport_error s = Some e ->
     In (code e) [4001; 4100; 4200; 4900; 4901; 4902] /\
     (forall n, e = ChainDisconnected n \/ e = UnrecognizedChain n -> n = 0)) /\
  (from_transport_error s = None <->
     forallb (fun p => negb (contains s (chars p)))
       ["User rejected"; "4001"; "4100"; "Unauthorized"; "4200"; "Unsupported method";
        "4900"; "Disconnected"; "4901"; "not connected to requested chain";
        "4902"; "Unrecognized chain"] = true) /\
  from_transport_error (chars "Chain 40010 has not been added to the provider") =
    Some UserRejectedRequest.
Proof.
  split_and!.
  - intros [H|H]; unfold from_transport_error; rewrite H; [done|].
    by rewrite orb_true_r.
  - intros e. unfold from_transport_error. split_contains; intros He; simplify_eq;
      (split; [simpl; tauto | intros n [Hn|Hn]; by simplify_eq]).
  - unfold from_transport_error. cbn [forallb].
    split_contains; rewrite ?negb_true, ?negb_false; cbn [negb andb];
      split; intros H; try discriminate; try reflexivity;
      repeat rewrite ?andb_false_r in H; try discriminate.
  - vm_compute. reflexivity.
Qed.

Lemma from_transport_error_shape_witness :
  from_transport_error (chars "error code 4001") = Some UserRejectedRequest.
Proof.
  destruct (from_transport_error_shape (chars "error code 4001")) as (H & _).
  apply H. right. vm_compute. reflexivity.
Defined.

End ErrorOpsFacts.

Module TransportOpsFacts.
Import Eip1193Error Transport ErrorOpsFacts.

(** The id, method and params [call] extracts from a single request. *)
Lemma extract_request_single (r : SerializedRequest) :
  extract_request (Single r) =
    Some (req_method r, default (JArray []) (req_params r),
          default 0 (match req_id r with IdNumber n => as_u64 (JInt n) | _ => None end)).
Proof. destruct r as [i m [p|]]; destruct i; reflexivity. Qed.

(** The code a rejected provider call reports, 0 when it carries none. *)
Lemma code_from_js_value (e : JsCarrier) :
  code (from_js_value e) = match e with CarrierObject (Some c) _ _ => c | _ => 0 end.
Proof. destruct e as [[c|] ? ?| |]; simpl; try apply code_from_code; reflexivity. Qed.

(** What [request] returns, by the provider's reply. *)
Lemma request_reply (f64_round : Z -> Z) (json_of_js : json -> ResultJson) (provider : Provider)
    (t : Eip1193Transport) (method : string) (params : json) :
  request f64_round json_of_js provider t method params =
  match provider (ethereum t) (request_object f64_round method params) with
  | Rejected e => Err (from_js_value e)
  | Resolved None => Err (SerializationError (chars "Failed to convert result to string"))
  | Resolved (Some v) =>
      match json_of_js v with
      | StringifyFailed => Err (SerializationError (chars "Failed to stringify result"))
      | ParseFailed msg => Err (SerializationError msg)
      | Parsed r => Ok r
      end
  end.
Proof.
  unfold request, request_raw, response_of.
  destruct (provider _ _) as [[v|]|e]; [|done|done]. by destruct (json_of_js v).
Qed.

(** [Eip1193Transport::request] succeeds exactly when the provider
    resolves with a value that [JSON.stringify] and [serde_json::from_str]
    turn into JSON, and then returns that JSON (the envelope of
    [request_raw] always has its [result] field); otherwise it fails with
    the error of the step that failed: the stringify, the conversion to a
    string, serde_json's own error, or, for a rejection, [from_js_value]
    of the carrier, whose [code] is the carrier's numeric code (0 when it
    has none). *)
Theorem request_outcome (f64_round : Z -> Z) (json_of_js : json -> ResultJson)
    (provider : Provider) (t : Eip1193Transport) (method : string) (params : json) :
  (forall r, request f64_round json_of_js provider t method params = Ok r <->
     exists v, provider (ethereum t) (request_object f64_round method params) = Resolved (Some v)
               /\ json_of_js v = Parsed r) /\
  (provider (ethereum t) (request_object f64_round method params) = Resolved None ->
     request f64_round json_of_js provider t method params =
       Err (SerializationError (chars "Failed to convert result to string"))) /\
  (forall v, provider (ethereum t) (request_object f64_round method params) = Resolved (Some v) ->
     json_of_js v = StringifyFailed ->
     request f64_round json_of_js provider t method params =
       Err (SerializationError (chars "Failed to stringify result"))) /\
  (forall v msg,
     provider (ethereum t) (request_object f64_round method params) = Resolved (Some v) ->
     json_of_js v = ParseFailed msg ->
     request f64_round json_of_js provider t method params = Err (SerializationError msg)) /\
  (forall e, provider (ethereum t) (request_object f64_round method params) = Rejected e ->
     request f64_round json_of_js provider t method params = Err (from_js_value e) /\
     code (from_js_value e) = match e with CarrierObject (Some c) _ _ => c | _ => 0 end).
Proof.
  rewrite request_reply. split_and!.
  - intros r. destruct (provider _ _) as [[v|]|e].
    + destruct (json_of_js v) eqn:Ej;
        (split; [intros H; simplify_eq; eauto | intros (v' & Hv & Hj); simplify_eq; congruence]).
    + split; [discriminate | intros (v' & Hv & _); discriminate].
    + split; [discriminate | intros (v' & Hv & _); discriminate].
  - by intros ->.
  - intros v -> Hj. by rewrite Hj.
  - intros v msg -> Hj. by rewrite Hj.
  - intros e ->. split; [reflexivity | apply code_from_js_value].
Qed.

Lemma request_outcome_witness :
  request (fun n => n) (fun v => Parsed v) (fun _ _ => Rejected (CarrierObject (Some 4001) None []))
    (new 0%nat) "eth_accounts" (JArray []) = Err UserRejectedRequest.
Proof.
  destruct (request_outcome (fun n => n) (fun v => Parsed v)
              (fun _ _ => Rejected (CarrierObject (Some 4001) None [])) (new 0%nat)
              "eth_accounts" (JArray [])) as (_ & _ & _ & _ & H).
  exact (proj1 (H _ eq_refl)).
Defined.

(** The service [call] of a single request forwards a provider rejection
    as [TransportEip1193] of [from_js_value] of the carrier: the wallet's
    numeric error code reaches the caller unchanged. *)
Theorem call_rejection_code (f64_round : Z -> Z) (json_of_js : json -> ResultJson)
    (provider : Provider) (t : Eip1193Transport) (r : SerializedRequest) (e : JsCarrier)
    (Hrej : provider (ethereum t)
              (request_object f64_round (req_method r) (default (JArray []) (req_params r)))
            = Rejected e) :
  call f64_round json_of_js provider t (Single r) = Err (TransportEip1193 (from_js_value e)) /\
  code (from_js_value e) = match e with CarrierObject (Some c) _ _ => c | _ => 0 end.
Proof.
  unfold call. rewrite extract_request_single. unfold request_raw.
  rewrite Hrej. split; [reflexivity | apply code_from_js_value].
Qed.

Lemma call_rejection_code_witness :
  call (fun n => n) (fun v => Parsed v) (fun _ _ => Rejected (CarrierObject (Some 4902) None []))
    (new 0%nat) (Single (mkRequest (IdNumber 3) "wallet_switchEthereumChain" None)) =
    Err (TransportEip1193 (UnrecognizedChain 0)).
Proof.
  exact (proj1 (call_rejection_code (fun n => n) (fun v => Parsed v)
                  (fun _ _ => Rejected (CarrierObject (Some 4902) None [])) (new 0%nat)
                  (mkRequest (IdNumber 3) "wallet_switchEthereumChain" None)
                  (CarrierObject (Some 4902) None []) eq_refl)).
Defined.

End TransportOpsFacts.

Module SignerOpsFacts.
Import ChainIdReading Eip1193Error Transport Signer SignerOps.

Section Signing.

Variable f64_round : Z -> Z.
Variable json_of_js : json -> ResultJson.
Variable address_debug : Address -> string.
Variable Signature : Type.
Variable parse_signature : string -> option Signature.

(** The signing requests of [sign_hash], [sign_message] and
    [sign_dynamic_typed_data] succeed exactly when the provider resolves
    with a JSON string that parses as a signature, and then return that
    signature. A rejection and a reply serde_json cannot parse are wrapped
    with the operation's error, a reply that is not a string is a
    deserialisation error wrapped the same way,
    and a string that does not parse gives [ParseSignatureFailed]. *)
Theorem request_signature_outcome (provider : Provider) (s : Eip1193Signer)
    (wrap : Eip1193Error -> SignerError) (method : string) (params : json) :
  (forall sg,
     request_signature f64_round json_of_js Signature parse_signature provider s wrap
       method params = Ok sg <->
     exists v str,
       provider (ethereum (transport s)) (request_object f64_round method params)
         = Resolved (Some v) /\
       json_of_js v = Parsed (JString str) /\ parse_signature str = Some sg) /\
  (forall e,
     provider (ethereum (transport s)) (request_object f64_round method params) = Rejected e ->
     request_signature f64_round json_of_js Signature parse_signature provider s wrap
       method params = Err (wrap (from_js_value e))) /\
  (forall v msg,
     provider (ethereum (transport s)) (request_object f64_round method params)
       = Resolved (Some v) ->
     json_of_js v = ParseFailed msg ->
     request_signature f64_round json_of_js Signature parse_signature provider s wrap
       method params = Err (wrap (SerializationError msg))) /\
  (forall v j,
     provider (ethereum (transport s)) (request_object f64_round method params)
       = Resolved (Some v) ->
     json_of_js v = Parsed j -> (forall str, j <> JString str) ->
     request_signature f64_round json_of_js Signature parse_signature provider s wrap
       method params
     = Err (wrap (SerializationError (chars "Failed to deserialize response")))) /\
  (forall v str,
     provider (ethereum (transport s)) (request_object f64_round method params)
       = Resolved (Some v) ->
     json_of_js v = Parsed (JString str) -> parse_signature str = None ->
     request_signature f64_round json_of_js Signature parse_signature provider s wrap
       method params = Err ParseSignatureFailed).
Proof.
  unfold request_signature. rewrite TransportOpsFacts.request_reply. split_and!.
  - intros sg. split.
    + destruct (provider _ _) as [[v|]|e]; try discriminate.
      destruct (json_of_js v) as [| [] |] eqn:Ej; try discriminate.
      destruct (parse_signature s0) eqn:Ep; [|discriminate].
      intros [= ->]. eauto.
    + intros (v & str & -> & -> & ->). reflexivity.
  - intros e ->. reflexivity.
  - intros v msg -> ->. reflexivity.
  - intros v j -> -> Hv. destruct j; try reflexivity.
    exfalso. by apply (Hv s0).
  - intros v str -> -> ->. reflexivity.
Qed.

(** [Eip1193Signer::refresh_chain_id] caches the chain it returns, so a
    following [validate_chain_id] accepts exactly that chain; on every
    failure the signer is left as it was. A reply [0x] followed by hex
    digits whose value fits in a [u64] is read as that value. *)
Theorem refresh_chain_id_effect (provider : Provider) (s : Eip1193Signer) :
  (forall s' c,
     refresh_chain_id f64_round json_of_js provider s = (s', Ok c) ->
     s' = set_chain_id s (Some c) /\
     forall expected, validate_chain_id s' expected = Ok tt <-> expected = c) /\
  (forall s' e, refresh_chain_id f64_round json_of_js provider s = (s', Err e) -> s' = s) /\
  (forall v str h,
     provider (ethereum (transport s)) (request_object f64_round "eth_chainId" (JArray []))
       = Resolved (Some v) ->
     json_of_js v = Parsed (JString str) -> chars str = [48; 120] ++ h -> h <> [] ->
     forallb is_hex_digit h = true -> hex_value h <= u64_max ->
     refresh_chain_id f64_round json_of_js provider s
     = (set_chain_id s (Some (hex_value h)), Ok (hex_value h))).
Proof.
  unfold refresh_chain_id. rewrite TransportOpsFacts.request_reply. split_and!.
  - intros s' c H. repeat case_match; simplify_eq. split; [done|].
    intros expected. unfold validate_chain_id, set_chain_id; simpl.
    destruct (Z.eqb_spec c expected); simpl; split; intros; simplify_eq; done.
  - intros s' e H. repeat case_match; by simplify_eq.
  - intros v str h -> -> Hc Hne Hh Hmax.
    rewrite Hc, Eip1193ErrorFacts.hex_0x_parse by done. reflexivity.
Qed.

End Signing.

Lemma request_signature_outcome_witness :
  request_signature (fun n => n) (fun v => Parsed v) string (fun str => Some str)
    (fun _ _ => Resolved (Some (JString "0xsig"))) (Signer.new 1%nat 7) SignHashFailed
    "eth_sign" (JArray []) = Ok "0xsig".
Proof.
  apply (request_signature_outcome (fun n => n) (fun v => Parsed v) string (fun str => Some str)
           (fun _ _ => Resolved (Some (JString "0xsig"))) (Signer.new 1%nat 7) SignHashFailed
           "eth_sign" (JArray [])).
  exists (JString "0xsig"), "0xsig". split_and!; reflexivity.
Defined.

Lemma refresh_chain_id_effect_witness :
  refresh_chain_id (fun n => n) (fun v => Parsed v) (fun _ _ => Resolved (Some (JString "0x89")))
    (Signer.new 1%nat 7)
  = (set_chain_id (Signer.new 1%nat 7) (Some 137), Ok 137).
Proof.
  destruct (refresh_chain_id_effect (fun n => n) (fun v => Parsed v)
              (fun _ _ => Resolved (Some (JString "0x89"))) (Signer.new 1%nat 7))
    as (_ & _ & H).
  exact (H (JString "0x89") "0x89" [56; 57] eq_refl eq_refl eq_refl
           ltac:(discriminate) eq_refl ltac:(vm_compute; discriminate)).
Defined.

Section NetworkWallet.

Variable f64_round : Z -> Z.
Variable json_of_js : json -> ResultJson.
Variable address_debug : Address -> string.
Variable Signature : Type.
Variable parse_signature : string -> option Signature.
Variable Tx : Type.
Variable encode_for_signing : Tx -> list Z.
Variable keccak256 : list Z -> list Z.
Variable Envelope : Type.
Variable into_signed : Tx -> Signature -> Envelope.

(** [NetworkWallet::sign_transaction_from] signs only for the signer's
    own address ([has_signer_for]): any other sender fails with a
    mismatch whatever the provider does; for the signer's address it
    sends [eth_sign] with the keccak256 of the transaction's signing
    encoding and wraps the signature into the envelope, a rejection of
    that request coming back as a signing failure carrying the
    provider's error. *)
Theorem sign_transaction_from_sender (s : Eip1193Signer) (sender : Address) (tx : Tx) :
  (has_signer_for s sender = true <-> sender = address s) /\
  (sender <> address s -> forall provider,
     sign_transaction_from f64_round json_of_js address_debug Signature parse_signature
       Tx encode_for_signing keccak256 Envelope into_signed provider s sender tx
     = Err SenderMismatch) /\
  (sender = address s -> forall provider,
     sign_transaction_from f64_round json_of_js address_debug Signature parse_signature
       Tx encode_for_signing keccak256 Envelope into_signed provider s sender tx
     = match sign_hash f64_round json_of_js address_debug Signature parse_signature provider s
               (keccak256 (encode_for_signing tx)) with
       | Ok sg => Ok (into_signed tx sg)
       | Err e => Err (SigningFailed e)
       end) /\
  (forall provider e, sender = address s ->
     provider (ethereum (transport s))
       (request_object f64_round "eth_sign"
          (JArray [JString (address_debug (address s));
                   JString ("0x" +:+ hex_encode (keccak256 (encode_for_signing tx)))]))
     = Rejected e ->
     sign_transaction_from f64_round json_of_js address_debug Signature parse_signature
       Tx encode_for_signing keccak256 Envelope into_signed provider s sender tx
     = Err (SigningFailed (SignHashFailed (from_js_value e)))).
Proof.
  unfold sign_transaction_from, has_signer_for. split_and!.
  - apply Z.eqb_eq.
  - intros Hne provider. by rewrite (proj2 (Z.eqb_neq _ _) Hne).
  - intros -> provider. by rewrite Z.eqb_refl.
  - intros provider e -> Hrej. rewrite Z.eqb_refl. simpl.
    unfold sign_transaction, sign_hash, request_signature. rewrite TransportOpsFacts.request_reply, Hrej.
    reflexivity.
Qed.

End NetworkWallet.

Lemma sign_transaction_from_sender_witness :
  sign_transaction_from (fun n => n) (fun v => Parsed v) (fun _ => "0x07") string
    (fun str => Some str) unit (fun _ => []) (fun h => h) string (fun _ sg => sg)
    (fun _ _ => Resolved (Some (JString "0xsig"))) (Signer.new 1%nat 7) 8 tt
  = Err SenderMismatch.
Proof.
  destruct (sign_transaction_from_sender (fun n => n) (fun v => Parsed v) (fun _ => "0x07") string
              (fun str => Some str) unit (fun _ => []) (fun h => h) string (fun _ sg => sg)
              (Signer.new 1%nat 7) 8 tt) as (_ & H & _).
  apply H. discriminate.
Defined.

End SignerOpsFacts.

Module WalletOpsFacts.
Import ChainIdReading Eip1193Error Transport WalletOps.

(** A JSON array deserialises to a [Vec<String>] exactly when all its
    items are strings. *)
Lemma mapM_as_str (items : list json) (l : list string) :
  mapM as_str items = Some l <-> items = map JString l.
Proof.
  revert l. induction items as [|x items IH]; intros l; simpl.
  - split; [intros [= <-]; done|]. by destruct l.
  - destruct x; simpl; split; try discriminate; try (destruct l; discriminate).
    + destruct (mapM as_str items) as [l'|] eqn:E; simpl; [|discriminate].
      intros [= <-]. simpl. f_equal. by apply IH.
    + destruct l as [|y l]; [discriminate|]. intros [= -> Hi].
      apply IH in Hi. by rewrite Hi.
Qed.

Section Accounts.

Variable parse_address : string -> option Address.

Lemma collect_addresses_ok (l : list string) (r : list Address) :
  collect_addresses parse_address l = Ok r <-> mapM parse_address l = Some r.
Proof.
  revert r. induction l as [|x l IH]; intros r; simpl.
  - split; intros H; injection H as <-; reflexivity.
  - destruct (parse_address x) as [a|]; simpl; [|split; discriminate].
    destruct (collect_addresses parse_address l) as [r'|e] eqn:E;
      destruct (mapM parse_address l) as [r''|] eqn:E'; simpl.
    + pose proof (proj1 (IH r') eq_refl) as Hr. injection Hr as ->.
      split; intros H; injection H as <-; reflexivity.
    + discriminate (proj1 (IH r') eq_refl).
    + discriminate (proj2 (IH r'') eq_refl).
    + split; discriminate.
Qed.

Lemma collect_addresses_err (l : list string) (e : AccountsError) :
  collect_addresses parse_address l = Err e -> e = InvalidAddressFormat.
Proof.
  induction l as [|x l IH]; simpl; [discriminate|].
  destruct (parse_address x); [|by intros [= <-]].
  destruct (collect_addresses parse_address l); [discriminate|]. intros [= <-]. by apply IH.
Qed.

Lemma collect_addresses_none (l : list string) :
  mapM parse_address l = None -> collect_addresses parse_address l = Err InvalidAddressFormat.
Proof.
  intros H. destruct (collect_addresses parse_address l) as [r|e] eqn:E.
  - apply collect_addresses_ok in E. congruence.
  - by rewrite (collect_addresses_err l e E).
Qed.

Variable f64_round : Z -> Z.
Variable json_of_js : json -> ResultJson.

(** [WalletOperations::request_accounts] returns addresses exactly when
    the provider resolves [eth_requestAccounts] with an array of strings
    that all parse as addresses, and then returns them in order. One
    entry that does not parse fails the whole call with
    [InvalidAddressFormat], a reply that is not an array of strings is a
    deserialisation error, and a rejection carries the provider's
    error. *)
Theorem request_accounts_outcome (provider : Provider) (t : Eip1193Transport) :
  (forall addrs,
     request_accounts f64_round json_of_js parse_address provider t = Ok addrs <->
     exists v l,
       provider (ethereum t) (request_object f64_round "eth_requestAccounts" (JArray []))
         = Resolved (Some v) /\
       json_of_js v = Parsed (JArray (map JString l)) /\ mapM parse_address l = Some addrs) /\
  (forall v l,
     provider (ethereum t) (request_object f64_round "eth_requestAccounts" (JArray []))
       = Resolved (Some v) ->
     json_of_js v = Parsed (JArray (map JString l)) -> mapM parse_address l = None ->
     request_accounts f64_round json_of_js parse_address provider t = Err InvalidAddressFormat) /\
  (forall v j,
     provider (ethereum t) (request_object f64_round "eth_requestAccounts" (JArray []))
       = Resolved (Some v) ->
     json_of_js v = Parsed j -> (forall l, j <> JArray (map JString l)) ->
     request_accounts f64_round json_of_js parse_address provider t
     = Err (AccountsRequestFailed (SerializationError (chars "Failed to deserialize response")))) /\
  (forall e,
     provider (ethereum t) (request_object f64_round "eth_requestAccounts" (JArray []))
       = Rejected e ->
     request_accounts f64_round json_of_js parse_address provider t
     = Err (AccountsRequestFailed (from_js_value e))).
Proof.
  unfold request_accounts. rewrite TransportOpsFacts.request_reply. split_and!.
  - intros addrs. split.
    + destruct (provider _ _) as [[v|]|e]; try discriminate.
      destruct (json_of_js v) as [|j|] eqn:Ej; try discriminate.
      destruct (strings_of j) as [l|] eqn:Es; [|discriminate].
      intros Hc. exists v, l. split_and!; [done| |by apply collect_addresses_ok].
      destruct j; try discriminate. rewrite Ej. do 2 f_equal. by apply mapM_as_str.
    + intros (v & l & -> & Hj & Hm). rewrite Hj. simpl.
      rewrite (proj2 (mapM_as_str (map JString l) l) eq_refl).
      by apply collect_addresses_ok.
  - intros v l -> Hj Hm. rewrite Hj. simpl.
    rewrite (proj2 (mapM_as_str (map JString l) l) eq_refl).
    by apply collect_addresses_none.
  - intros v j -> -> Hv. destruct j; try reflexivity. simpl.
    destruct (mapM as_str items) as [l|] eqn:Em; [|reflexivity].
    exfalso. apply (Hv l). f_equal. by apply mapM_as_str.
  - intros e ->. reflexivity.
Qed.

End Accounts.

Lemma request_accounts_outcome_witness :
  request_accounts (fun n => n) (fun v => Parsed v) (fun _ => None)
    (fun _ _ => Resolved (Some (JArray [JString "0x07"]))) (Transport.new 1%nat)
  = Err InvalidAddressFormat.
Proof.
  destruct (request_accounts_outcome (fun _ => None) (fun n => n) (fun v => Parsed v)
              (fun _ _ => Resolved (Some (JArray [JString "0x07"]))) (Transport.new 1%nat))
    as (_ & H & _).
  exact (H (JArray [JString "0x07"]) ["0x07"] eq_refl eq_refl eq_refl).
Defined.

(** The digit [format!("{:x}")] writes for [d < 16]. *)
Lemma hex_digit_char (d : Z) :
  0 <= d < 16 ->
  let c := if d <? 10 then 48 + d else 87 + d in
  is_hex_digit c = true /\ hex_digit_value c = d /\ (48 <= c <= 57 \/ 97 <= c <= 102).
Proof.
  intros Hd. cbv zeta. unfold is_hex_digit, hex_digit_value, is_ascii_digit.
  destruct (Z.ltb_spec d 10); zcases; split_and!; try reflexivity; lia.
Qed.

Lemma lower_hex_le_S (f : nat) (n : Z) :
  lower_hex_le (S f) n =
  let d := n mod 16 in
  let c := if d <? 10 then 48 + d else 87 + d in
  if n <? 16 then [c] else c :: lower_hex_le f (n / 16).
Proof. reflexivity. Qed.

Lemma lower_hex_le_spec (f : nat) (n : Z) :
  0 <= n < 16 ^ Z.of_nat (S f) ->
  lower_hex_le (S f) n <> [] /\
  forallb is_hex_digit (lower_hex_le (S f) n) = true /\
  Forall (fun c => 48 <= c <= 57 \/ 97 <= c <= 102) (lower_hex_le (S f) n) /\
  fold_right (fun c acc => acc * 16 + hex_digit_value c) 0 (lower_hex_le (S f) n) = n.
Proof.
  revert n. induction f as [|f IH]; intros n Hn.
  - assert (Hlt : n < 16) by (simpl in Hn; lia).
    destruct (hex_digit_char (n mod 16) ltac:(apply Z.mod_pos_bound; lia))
      as (Hh & Hv & Hr).
    cbn [lower_hex_le]. cbv zeta in Hh, Hv, Hr |- *.
    rewrite (proj2 (Z.ltb_lt n 16) Hlt).
    rewrite Z.mod_small in Hh, Hv, Hr |- * by lia.
    split_and!; [done|cbn [forallb]; by rewrite Hh|constructor; [exact Hr|constructor]|cbn [fold_right]; lia].
  - destruct (hex_digit_char (n mod 16) ltac:(apply Z.mod_pos_bound; lia))
      as (Hh & Hv & Hr).
    rewrite lower_hex_le_S. cbv zeta in Hh, Hv, Hr |- *.
    destruct (Z.ltb_spec n 16).
    + rewrite Z.mod_small in Hh, Hv, Hr |- * by lia.
      split_and!; [done|cbn [forallb]; by rewrite Hh|constructor; [exact Hr|constructor]|cbn [fold_right]; lia].
    + destruct (IH (n / 16)) as (Hne & Hall & Hrange & Hval).
      { split; [apply Z.div_pos; lia|].
        apply Z.div_lt_upper_bound; [lia|].
        rewrite Nat2Z.inj_succ, Z.pow_succ_r in Hn by lia. lia. }
      split_and!.
      * done.
      * cbn [forallb]. by rewrite Hh, Hall.
      * by constructor.
      * cbn [fold_right]. rewrite Hval, Hv. pose proof (Z.div_mod n 16). lia.
Qed.

Lemma chars_string_of_rstr (l : rstr) :
  Forall (fun c => 0 <= c < 256) l -> chars (string_of_rstr l) = l.
Proof.
  induction 1 as [|c l Hc _ IH]; [done|].
  unfold chars in *. simpl. rewrite IH. f_equal.
  rewrite Ascii.nat_ascii_embedding by lia. lia.
Qed.

Lemma fold_left_rev {A B} (f : A -> B -> A) (l : list B) (a : A) :
  fold_left f (rev l) a = fold_right (fun x acc => f acc x) a l.
Proof.
  induction l as [|x l IH]; [done|]. simpl. by rewrite fold_left_app, IH.
Qed.

Lemma lower_hex_spec (n : Z) :
  0 <= n <= u64_max ->
  lower_hex n <> [] /\ forallb is_hex_digit (lower_hex n) = true /\
  Forall (fun c => 48 <= c <= 57 \/ 97 <= c <= 102) (lower_hex n) /\
  chars (chain_id_hex n) = [48; 120] ++ lower_hex n /\ hex_value (lower_hex n) = n.
Proof.
  intros Hn. unfold lower_hex, u64_max in *.
  destruct (lower_hex_le_spec 15 n ltac:(simpl; lia)) as (Hne & Hall & Hrange & Hval).
  split_and!.
  - intros E. apply Hne. by apply (f_equal (@rev Z)) in E; rewrite rev_involutive in E.
  - rewrite forallb_forall in Hall |- *. intros c Hc. apply Hall. by apply in_rev.
  - by apply Forall_rev.
  - unfold chain_id_hex. change ("0x" +:+ ?s) with (String (Ascii.ascii_of_nat 48) (String (Ascii.ascii_of_nat 120) s)).
    unfold chars. simpl. f_equal. f_equal. fold (chars (string_of_rstr (rev (lower_hex_le 16 n)))).
    apply chars_string_of_rstr. apply Forall_rev.
    eapply Forall_impl; [exact Hrange|]. simpl. intros; lia.
  - unfold hex_value. by rewrite fold_left_rev.
Qed.

(** The chain id [WalletOperations::switch_chain] sends,
    [format!("0x{:x}", chain_id)], is [0x] followed by the lower-case hex
    digits of the id, and every reader of a chain id reply in the code
    gives the id back: the connection's [get_current_chain_id], its
    [chainChanged] and [connect] listeners (outside their guards) and
    [Eip1193Signer::refresh_chain_id]. *)
Theorem chain_id_hex_roundtrip (c : Z) (Hc : 0 <= c <= u64_max) :
  (exists h, chars (chain_id_hex c) = [48; 120] ++ h /\ h <> [] /\
             forallb is_hex_digit h = true /\
             Forall (fun d => 48 <= d <= 57 \/ 97 <= d <= 102) h) /\
  Connection.get_current_chain_id (Some (chars (chain_id_hex c))) = Ok c /\
  (forall s, Connection.status s <> Connection.Disconnected ->
     Connection.on_chain_changed s (Some (chars (chain_id_hex c)))
     = Connection.set_chain_id (Some c) s) /\
  (forall s, Connection.status s <> Connection.Connected ->
     Connection.on_connect_event s (Some (chars (chain_id_hex c)))
     = Connection.set_chain_id (Some c) s) /\
  (forall f64_round json_of_js (provider : Provider) s v,
     provider (ethereum (Signer.transport s))
       (request_object f64_round "eth_chainId" (JArray [])) = Resolved (Some v) ->
     json_of_js v = Parsed (JString (chain_id_hex c)) ->
     Signer.refresh_chain_id f64_round json_of_js provider s
     = (Signer.set_chain_id s (Some c), Ok c)).
Proof.
  destruct (lower_hex_spec c Hc) as (Hne & Hall & Hlow & Hchars & Hval).
  assert (Hparse : from_str_radix_u64 (trim_start_0x (chars (chain_id_hex c))) 16 = Some c).
  { rewrite Hchars, Eip1193ErrorFacts.hex_0x_parse by (try done; lia). by rewrite Hval. }
  split_and!.
  - exists (lower_hex c). by split_and!.
  - unfold Connection.get_current_chain_id. by rewrite Hparse.
  - intros s Hs. unfold Connection.on_chain_changed.
    rewrite decide_False by done. by rewrite Hparse.
  - intros s Hs. unfold Connection.on_connect_event.
    rewrite decide_False by done. by rewrite Hparse.
  - intros f64_round json_of_js provider s v Hv Hj.
    unfold Signer.refresh_chain_id. rewrite TransportOpsFacts.request_reply, Hv. simpl.
    rewrite Hj. by rewrite Hparse.
Qed.

Lemma chain_id_hex_roundtrip_witness :
  Connection.get_current_chain_id (Some (chars (chain_id_hex 42161))) = Ok 42161.
Proof.
  exact (proj1 (proj2 (chain_id_hex_roundtrip 42161
                         ltac:(unfold u64_max; lia)))).
Defined.

End WalletOpsFacts.

Module ConnectionOpsFacts.
Import Connection ConnectionInvariant ConnectionClaims.

(** In every configuration reachable from [ConnectionState::new], a
    [Connected] state has an address, a chain id, a connector id and a
    provider, and the wallet listeners are installed; the consumer's
    transports map is never changed. *)
Theorem reachable_connected_complete (url_valid : string -> bool)
    (parse_address : rstr -> option Address) (transports0 : gmap Z string) (c : Config)
    (Hreach : reachable url_valid parse_address transports0 c) :
  connected_complete c /\ transports (st c) = transports0.
Proof.
  unfold connected_complete.
  induction Hreach as [|c l c' _ [IHc IHt] Hstep].
  - split; [discriminate|reflexivity].
  - destruct c as [[stt a ch cn pv tr] pd ls]. simpl in IHc, IHt. subst tr.
    inversion Hstep; subst; simpl in *; unfold_machine; simpl in *;
      repeat (case_match; simplify_eq/=);
      split; try reflexivity; intros Hs; try discriminate;
      try (split_and!; eauto; lia); naive_solver.
Qed.

Lemma reachable_connected_complete_witness :
  connected_complete (mkConfig demo_connected [] 1) /\
  transports (st (mkConfig demo_connected [] 1)) = demo_transports.
Proof.
  exact (reachable_connected_complete accept_url no_address demo_transports
           (mkConfig demo_connected [] 1) (ConnectionFacts.demo_connected_reachable no_address)).
Defined.

(** The wallet's [disconnect] event clears the session exactly as
    [ConnectionState::disconnect] does when the state is not already
    [Disconnected], and does nothing otherwise, so any fields left in a
    [Disconnected] state stay; it never touches the transports. *)
Theorem on_disconnect_event_disconnect (s : ConnectionState) :
  (status s <> Disconnected -> on_disconnect_event s = fst (disconnect s)) /\
  (status s = Disconnected -> on_disconnect_event s = s) /\
  transports (on_disconnect_event s) = transports s.
Proof.
  unfold on_disconnect_event, disconnect. split_and!.
  - intros Hs. by rewrite decide_False.
  - intros Hs. by rewrite decide_True.
  - case_decide; reflexivity.
Qed.

Lemma on_disconnect_event_disconnect_witness :
  on_disconnect_event demo_connected = fst (disconnect demo_connected).
Proof.
  apply (proj1 (on_disconnect_event_disconnect demo_connected)). discriminate.
Defined.

(** The [chainChanged] and [connect] listeners read a chain id payload
    exactly as [connect] reads the [eth_chainId] reply
    ([get_current_chain_id]): outside their guards they store the chain
    id it accepts and ignore a payload it rejects. Neither listener
    changes the status. *)
Theorem chain_listeners_parse (s : ConnectionState) (v : option rstr) :
  on_chain_changed s v =
    (if decide (status s = Disconnected) then s
     else match get_current_chain_id v with
          | Ok c => set_chain_id (Some c) s
          | Err _ => s
          end) /\
  on_connect_event s v =
    (if decide (status s = Connected) then s
     else match get_current_chain_id v with
          | Ok c => set_chain_id (Some c) s
          | Err _ => s
          end) /\
  status (on_chain_changed s v) = status s /\
  status (on_connect_event s v) = status s.
Proof.
  unfold on_chain_changed, on_connect_event, get_current_chain_id, set_chain_id.
  split_and!; repeat (case_decide || case_match); reflexivity.
Qed.

(** From a [Disconnected] state, [ConnectionState::connect] succeeds
    exactly when the connector returns an address, the wallet exposes a
    provider object, its [eth_chainId] reply parses, the transports map
    has a valid RPC URL for that chain; the state is then [Connected]
    with that address, chain and connector id and a provider built from
    a fresh signer for the address and the URL. *)
Theorem connect_success_from_disconnected (url_valid : string -> bool)
    (s : ConnectionState) (cid : string) (o : ConnectOutcome) (s' : ConnectionState)
    (Hs : status s = Disconnected) :
  connect url_valid s cid o = (s', Ok tt) <->
  exists addr h chain url,
    connector_result o = Ok addr /\ connector_provider o = Some h /\
    get_current_chain_id (chain_id_reply o) = Ok chain /\
    transports s !! chain = Some url /\ url_valid url = true /\
    s' = mkState Connected (Some addr) (Some chain) (Some cid)
           (Some (mkProvider (Signer.new h addr) url)) (transports s).
Proof.
  unfold connect, connect_start. rewrite Hs.
  rewrite decide_False by discriminate. rewrite decide_False by (intros [? _]; discriminate).
  unfold connect_finish, set_status, set_provider, set_connector_id, set_chain_id,
    set_address; simpl.
  split.
  - intros H. repeat (case_match; simplify_eq/=). eauto 10.
  - intros (addr & h & chain & url & Ha & Hh & Hc & Hu & Hv & ->).
    by rewrite Ha, Hh, Hc, Hu, Hv.
Qed.

Lemma connect_success_from_disconnected_witness :
  connect accept_url (new demo_transports) "metamask" demo_outcome = (demo_connected, Ok tt).
Proof.
  apply (connect_success_from_disconnected accept_url (new demo_transports) "metamask"
           demo_outcome demo_connected eq_refl).
  exists 7, 1%nat, 1, demo_rpc. split_and!; reflexivity.
Defined.

End ConnectionOpsFacts.

Module DisplayFacts.
Import Eip1193Error Eip1193ErrorOps.

Section NoStraddle.

(** A pattern all of whose characters satisfy [P] cannot straddle a
    character that does not. *)
Variable P : Z -> bool.

Lemma starts_with_app_head (w z p : rstr) :
  forallb P p = true -> (match z with [] => True | a :: _ => P a = false end) ->
  starts_with (w ++ z) p = starts_with w p.
Proof.
  revert p. induction w as [|b w IH]; intros p Hp Hz; simpl.
  - destruct p as [|c p']; [by destruct z|]. destruct z as [|a z']; [reflexivity|].
    simpl in Hp |- *. apply andb_true_iff in Hp as [Hc _].
    destruct (Z.eqb_spec c a); [subst; congruence|reflexivity].
  - destruct p as [|c p']; [reflexivity|]. simpl in Hp |- *.
    apply andb_true_iff in Hp as [_ Hp]. by rewrite IH.
Qed.

Lemma contains_app_head (w z p : rstr) :
  p <> [] -> forallb P p = true -> (match z with [] => True | a :: _ => P a = false end) ->
  contains (w ++ z) p = contains w p || contains z p.
Proof.
  intros Hne Hp Hz. induction w as [|b w IH].
  - simpl. destruct p; [congruence|reflexivity].
  - change ((b :: w) ++ z) with (b :: (w ++ z)).
    change (contains (b :: (w ++ z)) p) with
      (starts_with (b :: (w ++ z)) p || contains (w ++ z) p).
    change (contains (b :: w) p) with (starts_with (b :: w) p || contains w p).
    change (b :: (w ++ z)) with ((b :: w) ++ z).
    rewrite (starts_with_app_head (b :: w) z p Hp Hz), IH. by rewrite orb_assoc.
Qed.

Lemma starts_with_app_last (w z p : rstr) (a : Z) :
  forallb P p = true -> P a = false ->
  starts_with (w ++ a :: z) p = starts_with (w ++ [a]) p.
Proof.
  revert p. induction w as [|b w IH]; intros p Hp Ha; simpl.
  - destruct p as [|c p']; [reflexivity|]. simpl in Hp |- *.
    apply andb_true_iff in Hp as [Hc _].
    destruct (Z.eqb_spec c a); [subst; congruence|reflexivity].
  - destruct p as [|c p']; [reflexivity|]. simpl in Hp |- *.
    apply andb_true_iff in Hp as [_ Hp]. by rewrite IH.
Qed.

Lemma contains_app_last (w z p : rstr) (a : Z) :
  p <> [] -> forallb P p = true -> P a = false ->
  contains (w ++ a :: z) p = contains (w ++ [a]) p || contains z p.
Proof.
  intros Hne Hp Ha. induction w as [|b w IH].
  - destruct p as [|c p']; [congruence|]. simpl in Hp |- *.
    apply andb_true_iff in Hp as [Hc _].
    destruct (Z.eqb_spec c a); [subst; congruence|]. reflexivity.
  - change ((b :: w) ++ a :: z) with (b :: (w ++ a :: z)).
    change (contains (b :: (w ++ a :: z)) p) with
      (starts_with (b :: (w ++ a :: z)) p || contains (w ++ a :: z) p).
    change ((b :: w) ++ [a]) with (b :: (w ++ [a])).
    change (contains (b :: (w ++ [a])) p) with
      (starts_with (b :: (w ++ [a])) p || contains (w ++ [a]) p).
    change (b :: (w ++ a :: z)) with ((b :: w) ++ a :: z).
    change (b :: (w ++ [a])) with ((b :: w) ++ [a]).
    rewrite (starts_with_app_last (b :: w) z p a Hp Ha), IH. by rewrite orb_assoc.
Qed.

Lemma contains_none (d p : rstr) :
  p <> [] -> forallb P p = true -> forallb (fun c => negb (P c)) d = true ->
  contains d p = false.
Proof.
  intros Hne Hp. induction d as [|a d IH]; intros Hd.
  - simpl. destruct p; [congruence|reflexivity].
  - simpl in Hd. apply andb_true_iff in Hd as [Ha Hd].
    destruct p as [|c p']; [congruence|].
    change (contains (a :: d) (c :: p')) with
      (((c =? a) && starts_with d p') || contains d (c :: p')).
    simpl in Hp. apply andb_true_iff in Hp as [Hc _].
    destruct (Z.eqb_spec c a); [subst; by rewrite Hc in Ha|]. simpl. by apply IH.
Qed.

End NoStraddle.

Lemma dec_le_digits (f : nat) (n : Z) : forallb is_ascii_digit (dec_le f n) = true.
Proof.
  revert n. induction f as [|f IH]; intros n; [reflexivity|]. simpl.
  assert (Hd : is_ascii_digit (48 + n mod 10) = true).
  { unfold is_ascii_digit. pose proof (Z.mod_pos_bound n 10 ltac:(lia)).
    apply andb_true_iff. split; apply Z.leb_le; lia. }
  destruct (n <? 10); simpl; rewrite Hd; [reflexivity|apply IH].
Qed.

Lemma dec_u64_digits (n : Z) : dec_u64 n <> [] /\ forallb is_ascii_digit (dec_u64 n) = true.
Proof.
  unfold dec_u64. split.
  - intros E. apply (f_equal (@rev Z)) in E. rewrite rev_involutive in E.
    revert E. simpl. destruct (n <? 10); discriminate.
  - pose proof (dec_le_digits 20 n) as H. rewrite forallb_forall in H |- *.
    intros c Hc. apply H. by apply in_rev.
Qed.

(** A pattern of digits, or of non-digits, in a text made of a fixed
    prefix ending in a non-digit, a decimal number, and a fixed suffix
    starting with a non-digit. *)
Lemma contains_framed (A D B p : rstr) :
  A <> [] -> is_ascii_digit (List.last A 0) = false ->
  D <> [] -> forallb is_ascii_digit D = true ->
  (match B with [] => True | b :: _ => is_ascii_digit b = false end) -> p <> [] ->
  (forallb is_ascii_digit p = true ->
     contains (A ++ D ++ B) p = contains A p || contains D p || contains B p) /\
  (forallb (fun c => negb (is_ascii_digit c)) p = true ->
     contains (A ++ D ++ B) p = contains A p || contains B p).
Proof.
  intros HA Ha HD Hd HB Hp. split; intros Hpd.
  - rewrite (app_removelast_last 0 HA), <- app_assoc. cbn [app].
    rewrite (contains_app_last is_ascii_digit _ _ p _ Hp Hpd Ha).
    rewrite (contains_app_head is_ascii_digit D B p Hp Hpd HB).
    by rewrite orb_assoc.
  - set (Q := fun c => negb (is_ascii_digit c)).
    assert (HDh : match D ++ B with [] => True | a :: _ => Q a = false end).
    { destruct D as [|d D']; [congruence|]. simpl in Hd |- *.
      apply andb_true_iff in Hd as [Hd0 _]. unfold Q. by rewrite Hd0. }
    rewrite (contains_app_head Q A (D ++ B) p Hp Hpd HDh).
    assert (HDl : Q (List.last D 0) = false).
    { unfold Q. rewrite forallb_forall in Hd. rewrite Hd; [reflexivity|].
      assert (Hin : In (List.last D 0) (removelast D ++ [List.last D 0]))
        by (apply in_or_app; right; left; reflexivity).
      by rewrite <- (app_removelast_last 0 HD) in Hin. }
    rewrite (app_removelast_last 0 HD), <- app_assoc. cbn [app].
    rewrite (contains_app_last Q _ _ p _ Hp Hpd HDl).
    rewrite <- (app_removelast_last 0 HD).
    rewrite (contains_none Q D p Hp Hpd); [reflexivity|].
    unfold Q. rewrite forallb_forall in Hd |- *. intros c Hc. rewrite Hd by done. done.
Qed.


(** Rewrites away the [contains] of a pattern in a fixed text. *)
Ltac fixed_contains :=
  repeat match goal with
  | |- context [contains (chars ?A) (chars ?p)] =>
      let b := eval vm_compute in (contains (chars A) (chars p)) in
      replace (contains (chars A) (chars p)) with b by (vm_compute; reflexivity)
  end.

Lemma unrecognized_chain_contains (c : Z) (p : string) :
  (In p ["4001"; "4100"; "4200"; "4900"; "4901"; "4902"] ->
     contains (display (UnrecognizedChain c)) (chars p) = contains (dec_u64 c) (chars p)) /\
  (In p ["User rejected"; "Unauthorized"; "Unsupported method"; "Disconnected";
         "not connected to requested chain"; "Unrecognized chain"] ->
     contains (display (UnrecognizedChain c)) (chars p) = false).
Proof.
  destruct (dec_u64_digits c) as [HD Hd].
  pose proof (fun q Hq => contains_framed (chars "Chain ") (dec_u64 c)
                (chars " has not been added to the provider") q
                ltac:(discriminate) eq_refl HD Hd eq_refl Hq) as HF.
  change (display (UnrecognizedChain c)) with
    (chars "Chain " ++ dec_u64 c ++ chars " has not been added to the provider").
  split; intros Hp; destruct Hp as [<-|[<-|[<-|[<-|[<-|[<-|[]]]]]]].
  all: match goal with
       | |- contains _ (chars ?q) = _ =>
           first
             [ rewrite (proj1 (HF (chars q) ltac:(discriminate)) ltac:(vm_compute; reflexivity))
             | rewrite (proj2 (HF (chars q) ltac:(discriminate)) ltac:(vm_compute; reflexivity)) ]
       end.
  all: fixed_contains; cbn [orb]; by rewrite ?orb_false_r.
Qed.

Lemma chain_disconnected_contains (c : Z) (p : string) :
  (In p ["4001"; "4100"; "4200"; "4900"; "4901"; "4902"] ->
     contains (display (ChainDisconnected c)) (chars p) = contains (dec_u64 c) (chars p)) /\
  (In p ["User rejected"; "Unauthorized"; "Unsupported method"; "Disconnected";
         "not connected to requested chain"; "Unrecognized chain"] ->
     contains (display (ChainDisconnected c)) (chars p) =
     contains (chars "Provider not connected to requested chain: ") (chars p)).
Proof.
  destruct (dec_u64_digits c) as [HD Hd].
  pose proof (fun q Hq => contains_framed (chars "Provider not connected to requested chain: ")
                (dec_u64 c) [] q ltac:(discriminate) eq_refl HD Hd I Hq) as HF.
  change (display (ChainDisconnected c)) with
    (chars "Provider not connected to requested chain: " ++ dec_u64 c).
  rewrite <- (app_nil_r (dec_u64 c)).
  split; intros Hp; destruct Hp as [<-|[<-|[<-|[<-|[<-|[<-|[]]]]]]].
  all: match goal with
       | |- contains _ (chars ?q) = _ =>
           first
             [ rewrite (proj1 (HF (chars q) ltac:(discriminate)) ltac:(vm_compute; reflexivity))
             | rewrite (proj2 (HF (chars q) ltac:(discriminate)) ltac:(vm_compute; reflexivity)) ]
       end.
  all: rewrite ?app_nil_r; fixed_contains; cbn [orb contains starts_with];
    by rewrite ?orb_false_r.
Qed.

Lemma starts_with_app (x y p : rstr) :
  starts_with x p = true -> starts_with (x ++ y) p = true.
Proof.
  revert p. induction x as [|a x IH]; intros p H; destruct p as [|c p']; simpl in *;
    try done; [by destruct y|].
  apply andb_true_iff in H as [H1 H2]. by rewrite H1, IH.
Qed.

Lemma contains_of_starts (s p : rstr) : starts_with s p = true -> contains s p = true.
Proof. destruct s; simpl; intros ->; reflexivity. Qed.

Ltac unrec_rewrite c :=
  repeat match goal with
  | |- context [contains (display (UnrecognizedChain c)) (chars ?q)] =>
      first
        [ rewrite (proj1 (unrecognized_chain_contains c q) ltac:(simpl; tauto))
        | rewrite (proj2 (unrecognized_chain_contains c q) ltac:(simpl; tauto)) ]
  | |- context [contains (display (ChainDisconnected c)) (chars ?q)] =>
      first
        [ rewrite (proj1 (chain_disconnected_contains c q) ltac:(simpl; tauto))
        | rewrite (proj2 (chain_disconnected_contains c q) ltac:(simpl; tauto)) ]
  end.

(** [from_transport_error] applied to the text of the crate's own errors
    (their [Display], which [From<Eip1193Error> for JsValue] and the
    custom transport error carry): a user rejection comes back, but
    [Disconnected] (whose text says "disconnected" in lower case) gives
    [None]; [UnrecognizedChain c] gives [None] unless the decimal digits
    of [c] contain one of the six codes; [ChainDisconnected c] comes back
    with chain id 0 when its digits contain none of 4001, 4100, 4200 and
    4900; [Unauthorized m] comes back as a user rejection or as
    [Unauthorized] of the whole text, never of [m]. *)
Theorem display_from_transport_error (c : Z) (m : rstr) :
  from_transport_error (display UserRejectedRequest) = Some UserRejectedRequest /\
  from_transport_error (display Disconnected) = None /\
  (from_transport_error (display (UnrecognizedChain c)) = None <->
     forallb (fun p => negb (contains (dec_u64 c) (chars p)))
       ["4001"; "4100"; "4200"; "4900"; "4901"; "4902"] = true) /\
  (forallb (fun p => negb (contains (dec_u64 c) (chars p)))
       ["4001"; "4100"; "4200"; "4900"] = true ->
     from_transport_error (display (ChainDisconnected c)) = Some (ChainDisconnected 0)) /\
  (from_transport_error (display (Unauthorized m)) = Some UserRejectedRequest \/
   from_transport_error (display (Unauthorized m)) =
     Some (Unauthorized (chars "Unauthorized: " ++ m))).
Proof.
  split_and!.
  - vm_compute. reflexivity.
  - vm_compute. reflexivity.
  - unfold from_transport_error. unrec_rewrite c. cbn [orb forallb negb andb].
    destruct (contains (dec_u64 c) (chars "4001")), (contains (dec_u64 c) (chars "4100")),
      (contains (dec_u64 c) (chars "4200")), (contains (dec_u64 c) (chars "4900")),
      (contains (dec_u64 c) (chars "4901")), (contains (dec_u64 c) (chars "4902"));
      cbn [orb negb andb]; split; intros H; done.
  - unfold from_transport_error. unrec_rewrite c. fixed_contains.
    intros H. cbn [forallb] in H. rewrite ?orb_false_r, ?orb_true_r.
    destruct (contains (dec_u64 c) (chars "4001")), (contains (dec_u64 c) (chars "4100")),
      (contains (dec_u64 c) (chars "4200")), (contains (dec_u64 c) (chars "4900"));
      cbn [orb negb andb] in H |- *; done.
  - assert (Hu : contains (display (Unauthorized m)) (chars "Unauthorized") = true).
    { cbn [display]. apply contains_of_starts, starts_with_app. vm_compute. reflexivity. }
    unfold from_transport_error.
    destruct (contains (display (Unauthorized m)) (chars "User rejected")
              || contains (display (Unauthorized m)) (chars "4001")); [by left|].
    rewrite Hu, orb_true_r. by right.
Qed.

Lemma display_from_transport_error_witness :
  from_transport_error (display (ChainDisconnected 137)) = Some (ChainDisconnected 0).
Proof.
  destruct (display_from_transport_error 137 []) as (_ & _ & _ & H & _).
  apply H. vm_compute. reflexivity.
Defined.

End DisplayFacts.

Module ChainIdParseFacts.
Import ChainIdReading Connection.

(** [u64::from_str_radix(h, 16)] on a non-empty run of hex digits: its
    value, or the overflow error above [u64::MAX]. *)
Lemma from_str_radix_u64_hex (h : rstr) :
  h <> [] -> forallb is_hex_digit h = true ->
  from_str_radix_u64 h 16 = if hex_value h <=? u64_max then Some (hex_value h) else None.
Proof.
  intros Hne Hh.
  assert (Hds : (match h with
                 | [] => None
                 | [c] => if (c =? 43) || (c =? 45) then None else Some h
                 | c :: rest => if c =? 43 then Some rest else Some h
                 end) = Some h).
  { destruct h as [|a [|b r]]; [congruence| |]; simpl in Hh;
      apply andb_true_iff in Hh as [Ha _];
      destruct (Z.eqb_spec a 43); [subst; discriminate| |subst; discriminate|reflexivity];
      destruct (Z.eqb_spec a 45); [subst; discriminate|reflexivity]. }
  unfold from_str_radix_u64. rewrite Hds.
  rewrite (Eip1193ErrorFacts.digits_value_all 16 0 h hex_digit_value
             (Eip1193ErrorFacts.forallb_Forall_hex h Hh)).
  reflexivity.
Qed.

(** How [ConnectionState::get_current_chain_id] (and with it the
    [chainChanged] and [connect] listeners) reads the wallet's reply: any
    number of leading [0x] are dropped; what remains is read as hex even
    without a prefix, one leading [+] being accepted; an empty reply, a
    bare [0x], and a value above [u64::MAX] are errors. *)
Theorem get_current_chain_id_edges (s h : rstr) :
  get_current_chain_id (Some ([48; 120] ++ s)) = get_current_chain_id (Some s) /\
  get_current_chain_id (Some []) = Err ChainIdFailed /\
  get_current_chain_id (Some [48; 120]) = Err ChainIdFailed /\
  (h <> [] -> forallb is_hex_digit h = true ->
     get_current_chain_id (Some h) =
       (if hex_value h <=? u64_max then Ok (hex_value h) else Err ChainIdFailed) /\
     get_current_chain_id (Some (43 :: h)) =
       (if hex_value h <=? u64_max then Ok (hex_value h) else Err ChainIdFailed)).
Proof.
  split_and!; try reflexivity.
  intros Hne Hh. unfold get_current_chain_id.
  assert (Hplus : trim_start_0x (43 :: h) = 43 :: h).
  { destruct h as [|a r]; reflexivity. }
  rewrite Hplus, Eip1193ErrorFacts.trim_start_0x_no_prefix
    by (by apply Eip1193ErrorFacts.all_hex_no_0x).
  rewrite (from_str_radix_u64_hex h Hne Hh).
  assert (Hp : from_str_radix_u64 (43 :: h) 16 =
                if hex_value h <=? u64_max then Some (hex_value h) else None).
  { destruct h as [|a r]; [congruence|]. unfold from_str_radix_u64.
    cbv zeta iota beta. rewrite Z.eqb_refl. cbv iota.
    rewrite (Eip1193ErrorFacts.digits_value_all 16 0 (a :: r) hex_digit_value
               (Eip1193ErrorFacts.forallb_Forall_hex (a :: r) Hh)).
    reflexivity. }
  rewrite Hp.
  split; by destruct (hex_value h <=? u64_max).
Qed.

Lemma get_current_chain_id_edges_witness :
  get_current_chain_id (Some (chars "+89")) = Ok 137.
Proof.
  destruct (get_current_chain_id_edges [] (chars "89")) as (_ & _ & _ & H).
  exact (proj2 (H ltac:(discriminate) eq_refl)).
Defined.

End ChainIdParseFacts.
